(** * hyperbbob: the method wrapper and the stepping log of [methods.py]

    A shallow embedding of the two classes of [src/methods.py]:

    - [MinimizeMethod]: resolves a method name into the keyword arguments
      of a nested minimizer call and delegates to an outer loop;
    - [SteppingData]: appends one differentially encoded line per step to
      an [.mdat] file.

    Python [float] is IEEE binary64 and is modelled by Rocq's primitive
    floats, Python [int] by [Z], [str] by [string], [dict] by [gmap].
    The benchmark function object and [scipy.optimize.basinhopping] are
    external collaborators and enter as an interface and as a parameter. *)

From Stdlib Require Import ZArith String Ascii List Bool Lia.
From Stdlib Require Import DecimalString DecimalPos DecimalZ Floats.
From stdpp Require Import gmap strings.
Import ListNotations.

Local Open Scope string_scope.
Local Open Scope Z_scope.

(** ** Python values shared by both classes *)

(** The exceptions the modelled code can raise. *)
Inductive exn :=
| RuntimeError (msg : string)
| TypeError (msg : string)
| ValueError (msg : string).

(** A one-dimensional [numpy] array of float64. *)
Definition ndarray := list float.

(** ** String formatting: the [%] operator of [str] *)

Module Fmt.

(** The newline character ['\n'] and the space. *)
Definition nl : ascii := "010"%char.
Definition sp : ascii := " "%char.

(** [count c s]: the number of occurrences of the character [c] in [s]
    (Python's [s.count(c)]). *)
Fixpoint count (c : ascii) (s : string) : nat :=
  match s with
  | EmptyString => O
  | String a s' => ((if Ascii.eqb a c then 1 else 0) + count c s')%nat
  end.

(** [split c s]: Python's [s.split(c)] for a one-character separator. *)
Fixpoint split (c : ascii) (s : string) : list string :=
  match s with
  | EmptyString => [EmptyString]
  | String a s' =>
      if Ascii.eqb a c then EmptyString :: split c s'
      else match split c s' with
           | w :: ws => String a w :: ws
           | [] => [String a EmptyString]
           end
  end.

(** [rjust w s]: [s] right-justified in a field of width [w], padded with
    spaces on the left (a conversion's minimum field width). *)
Fixpoint spaces (n : nat) : string :=
  match n with
  | O => EmptyString
  | S n' => String sp (spaces n')
  end.

Definition rjust (w : nat) (s : string) : string :=
  spaces (w - String.length s) ++ s.

(** ['%d' % z] for a Python [int]. *)
Definition pct_d (z : Z) : string := NilZero.string_of_int (Z.to_int z).

(** ['%s' % s] for a [str]. *)
Definition pct_s (s : string) : string := s.

(** *** ['%+10.9e' % x]

    The conversion prints the exact value of the binary64 number rounded
    to ten significant decimal digits, ties to even, as
    [sign d.ddddddddd e sign dd], and [inf] and [nan] as words; the result
    is padded to the minimum width 10. *)

(** The exact value [m * 2^e] of a finite float as a fraction. *)
Definition frac_of (m : positive) (e : Z) : Z * Z :=
  if 0 <=? e then (Zpos m * 2 ^ e, 1) else (Zpos m, 2 ^ (- e)).

(** [n/d] divided by [10^k]. *)
Definition scale10 (nd : Z * Z) (k : Z) : Z * Z :=
  let (n, d) := nd in
  if 0 <=? k then (n, d * 10 ^ k) else (n * 10 ^ (- k), d).

(** The decimal exponent of [n/d]: the greatest [k] with [10^k <= n/d],
    searched downwards from [k]. *)
Fixpoint dec_exp (fuel : nat) (k : Z) (nd : Z * Z) : Z :=
  match fuel with
  | O => k
  | S fuel' =>
      let (n', d') := scale10 nd k in
      if d' <=? n' then k else dec_exp fuel' (k - 1) nd
  end.

(** [n/d] rounded to the nearest integer, ties to even. *)
Definition round_half_even (nd : Z * Z) : Z :=
  let (n, d) := nd in
  let q := n / d in
  let r := n mod d in
  match 2 * r ?= d with
  | Lt => q
  | Gt => q + 1
  | Eq => if Z.even q then q else q + 1
  end.

(** The ten significant digits and the decimal exponent of [m * 2^e]. *)
Definition sci_digits (m : positive) (e : Z) : Z * Z :=
  let nd := frac_of m e in
  let k := dec_exp 640 308 nd in
  let d := round_half_even (scale10 nd (k - 9)) in
  if 10 ^ 10 <=? d then (10 ^ 9, k + 1) else (d, k).

(** The exponent part: a sign and at least two digits. *)
Definition exp_part (k : Z) : string :=
  (if k <? 0 then "-" else "+") ++
  (if Z.abs k <? 10 then "0" else "") ++ pct_d (Z.abs k).

(** The mantissa part: the first digit, the point, the other digits. *)
Definition mant_part (d : Z) : string :=
  match pct_d d with
  | String c rest => String c ("." ++ rest)
  | EmptyString => EmptyString
  end.

Definition sign_part (s : bool) : string := if s then "-" else "+".

Definition pct_e (x : float) : string :=
  rjust 10
    match Prim2SF x with
    | S754_nan => "+nan"
    | S754_infinity s => sign_part s ++ "inf"
    | S754_zero s => sign_part s ++ "0.000000000e+00"
    | S754_finite s m e =>
        let (d, k) := sci_digits m e in
        sign_part s ++ mant_part d ++ "e" ++ exp_part k
    end.

End Fmt.

(** ** The benchmark function object

    [fi.f] is an object of the BBOB suite ([fgeneric.LoggingFunction]),
    not of this repository: the code reads the attributes and calls the
    methods below, whatever the object is. *)

Module Bbob.

(** [f.lasteval]: the evaluation counter and the best fitness so far. *)
Record LastEval := { num : Z; bestf : float }.

Class LoggingFunction (F : Type) := {
  lasteval : F -> LastEval;
  fopt : F -> float;
  precision : F -> float;
  datafile : F -> string;
  _is_setdim : F -> bool;
  _dim : F -> Z;
  _setdim : Z -> F -> F;
  _is_ready : F -> bool;
  _readytostart : F -> F
}.

(** The function instance [fi] handed to both constructors. *)
Record FInstance (F : Type) := { dim : Z; f : F }.
Arguments dim {F} _.
Arguments f {F} _.

End Bbob.

(** ** Files opened for appending *)

Module File.

(** The files of the system, by path. *)
Abbreviation files := (gmap string string).

(** An open handle: its path and the text written but not yet flushed. *)
Record t := { path : string; buffer : string }.

(** [open(p, 'a')]: the file is created empty when it is absent and kept
    as it is otherwise. *)
Definition open_append (p : string) (fs : files) : t * files :=
  ({| path := p; buffer := "" |}, <[p := default "" (fs !! p)]> fs).

Definition write (s : string) (h : t) : t :=
  {| path := path h; buffer := buffer h ++ s |}.

Definition flush (h : t) (fs : files) : t * files :=
  ({| path := path h; buffer := "" |},
   <[path h := default "" (fs !! path h) ++ buffer h]> fs).

(** What a reader sees once everything written through [h] is flushed. *)
Definition contents (h : t) (fs : files) : string :=
  default "" (fs !! path h) ++ buffer h.

End File.

(** ** [os.path.splitext] *)

Module OsPath.

(** [p.rfind(c)]: the index of the last [c] in [p], or [-1]. *)
Fixpoint rfind_from (c : ascii) (p : string) (i : Z) (acc : Z) : Z :=
  match p with
  | EmptyString => acc
  | String a p' => rfind_from c p' (i + 1) (if Ascii.eqb a c then i else acc)
  end.

Definition rfind (c : ascii) (p : string) : Z := rfind_from c p 0 (-1).

(** The loop of [genericpath._splitext] that skips the leading dots of the
    file name: [true] when a character other than the dot stands in
    [p[filenameIndex:dotIndex]]. *)
Fixpoint has_name (n : nat) (filenameIndex : nat) (p : string) : bool :=
  match n with
  | O => false
  | S n' =>
      match String.get filenameIndex p with
      | Some a =>
          if Ascii.eqb a "."%char then has_name n' (S filenameIndex) p
          else true
      | None => false
      end
  end.

Definition splitext (p : string) : string * string :=
  let sepIndex := rfind "/"%char p in
  let dotIndex := rfind "."%char p in
  if (sepIndex <? dotIndex)
     && has_name (Z.to_nat (dotIndex - (sepIndex + 1))) (Z.to_nat (sepIndex + 1)) p
  then (String.substring 0 (Z.to_nat dotIndex) p,
        String.substring (Z.to_nat dotIndex)
          (String.length p - Z.to_nat dotIndex) p)
  else (p, "").

End OsPath.

(** ** [class SteppingData] *)

Module SteppingData.
Import Bbob Fmt.

(** [self.f] is a reference to the object [fi.f], which the benchmark
    mutates at every evaluation: the object lives in the world, next to
    the files, and the attributes of [self] proper are the record [t]. *)
Record t := {
  total_iters : Z;
  last_best : option float;
  datafile : File.t
}.

Record World (F : Type) := { fobj : F; fs : File.files }.
Arguments fobj {F} _.
Arguments fs {F} _.

Definition header : string :=
  "% function evaluation | portfolio iteration | instance index | instance method | instance invocations | instance best noise-free fitness - Fopt | best noise-free fitness - Fopt"
  ++ String nl "".

(** ['%d %d %d %s %d %+10.9e' % (num, total_iters, i, name, iters, fitness)] *)
Definition fmt_step (num total_iters i : Z) (name : string) (iters : Z)
    (fitness : float) : string :=
  pct_d num ++ " " ++ pct_d total_iters ++ " " ++ pct_d i ++ " "
  ++ pct_s name ++ " " ++ pct_d iters ++ " " ++ pct_e fitness.

(** [self.last_best is None or best != self.last_best] *)
Definition changed (last_best : option float) (best : float) : bool :=
  match last_best with
  | None => true
  | Some lb => negb (best =? lb)%float
  end.

Section Methods.
Context {F : Type} `{LoggingFunction F}.

Definition __init__ (fi : FInstance F) (fs0 : File.files) : t * World F :=
  let f0 := f fi in
  let f1 :=
    if negb (_is_setdim f0) || negb (_dim f0 =? dim fi)
    then _setdim (dim fi) f0 else f0 in
  let f2 := if negb (_is_ready f1) then _readytostart f1 else f1 in
  let (h, fs1) :=
    File.open_append (fst (OsPath.splitext (Bbob.datafile f2)) ++ ".mdat") fs0 in
  ({| total_iters := 0; last_best := None; datafile := File.write header h |},
   {| fobj := f2; fs := fs1 |}).

Definition end_iter (self : t) : t :=
  {| total_iters := total_iters self + 1;
     last_best := last_best self;
     datafile := datafile self |}.

(** The text [res] of one step and the value of [self.last_best] after
    it. *)
Definition step_line (self : t) (fn : F) (i : Z) (name : string) (iters : Z)
    (fitness : float) (point : ndarray) : string * option float :=
  let e := lasteval fn in
  let best := (bestf e - fopt fn)%float in
  let res := fmt_step (num e) (total_iters self) i name iters fitness in
  if changed (last_best self) best
  then (res ++ " " ++ pct_e best, Some best)
  else (res, last_best self).

Definition record (i : Z) (name : string) (iters : Z) (fitness : float)
    (point : ndarray) (self : t) (w : World F) : t * World F :=
  let (res, lb) := step_line self (fobj w) i name iters fitness point in
  let h1 := File.write (res ++ String nl "") (datafile self) in
  let (h2, fs2) := File.flush h1 (fs w) in
  ({| total_iters := total_iters self; last_best := lb; datafile := h2 |},
   {| fobj := fobj w; fs := fs2 |}).

(** *** Runs: the calls a benchmark makes on one log

    Between two calls on the log the objective function is evaluated,
    which changes the function object behind [self.f]. *)
Inductive call :=
| EndIter
| Record_ (i : Z) (name : string) (iters : Z) (fitness : float) (point : ndarray)
| Evaluate (g : F -> F).

Definition step (c : call) (st : t * World F) : t * World F :=
  match c with
  | EndIter => (end_iter (fst st), snd st)
  | Record_ i name iters fitness point =>
      record i name iters fitness point (fst st) (snd st)
  | Evaluate g => (fst st, {| fobj := g (fobj (snd st)); fs := fs (snd st) |})
  end.

Definition run (cs : list call) (st : t * World F) : t * World F :=
  fold_left (fun st c => step c st) cs st.

(** Everything written to the log so far, flushed or not. *)
Definition log_text (st : t * World F) : string :=
  File.contents (datafile (fst st)) (fs (snd st)).

(** *** Observations on a run, for the statements below *)

(** [best] as [record] computes it from the function object. *)
Definition offset (fn : F) : float := (bestf (lasteval fn) - fopt fn)%float.

(** The offset computed by the latest [record] call of a run that starts
    with the function object [fn]; [acc] when the run has none. *)
Fixpoint last_offset (cs : list call) (fn : F) (acc : option float)
    : option float :=
  match cs with
  | [] => acc
  | EndIter :: cs' => last_offset cs' fn acc
  | Record_ _ _ _ _ _ :: cs' => last_offset cs' fn (Some (offset fn))
  | Evaluate g :: cs' => last_offset cs' (g fn) acc
  end.

Definition is_record (c : call) : bool :=
  match c with Record_ _ _ _ _ _ => true | _ => false end.

Definition is_end_iter (c : call) : bool :=
  match c with EndIter => true | _ => false end.

(** The calls of a run whose method name holds a newline character. *)
Definition name_has_nl (c : call) : bool :=
  match c with
  | Record_ _ name _ _ _ => negb (Nat.eqb (count nl name) 0)
  | _ => false
  end.

(** A call with its point put aside. *)
Definition erase_point (c : call) : call :=
  match c with
  | Record_ i name iters fitness _ => Record_ i name iters fitness []
  | _ => c
  end.

End Methods.

(** The stored value and the offset of the latest [record] call: both
    unset, or the stored one is that offset up to [==]. *)
Definition tracks (lb prev : option float) : Prop :=
  match lb, prev with
  | None, None => True
  | Some v, Some b => v = b \/ (b =? v)%float = true
  | _, _ => False
  end.

(** A line of the log that starts with ['%']. *)
Definition is_comment (l : string) : bool :=
  match l with
  | String c _ => Ascii.eqb c "%"%char
  | EmptyString => false
  end.

(** The text of [lines], each terminated by a newline. *)
Definition unlines (lines : list string) : string :=
  fold_right (fun l acc => l ++ String nl acc) "" lines.

End SteppingData.

(** ** The [numpy] operations of the constraint expressions *)

Module Np.

(** [x + c] and [x - c] for an array and a scalar, and [-x]. *)
Definition add (x : ndarray) (c : float) : ndarray :=
  map (fun xi => (xi + c)%float) x.

Definition sub (x : ndarray) (c : float) : ndarray :=
  map (fun xi => (xi - c)%float) x.

Definition neg (x : ndarray) : ndarray := map (fun xi => (- xi)%float) x.

(** One step of the [minimum] reduction: a NaN met on the way stays. *)
Definition minimum (acc b : float) : float :=
  if (acc <? b)%float || is_nan acc then acc else b.

(** [np.min(x)]: the reduction has no identity, an empty array raises. *)
Definition min (x : ndarray) : exn + float :=
  match x with
  | [] =>
      inl (ValueError
        "zero-size array to reduction operation minimum which has no identity")
  | a :: l => inr (fold_left minimum l a)
  end.

End Np.

(** ** [class MinimizeMethod] *)

Module MinimizeMethod.
Import Bbob Fmt.

(** [str.lower] on the ASCII letters; no other character has a lower-case
    form among the letters of the two refused names. *)
Definition lower_char (c : ascii) : ascii :=
  let n := nat_of_ascii c in
  if (65 <=? n)%nat && (n <=? 90)%nat then ascii_of_nat (n + 32) else c.

Fixpoint lower (s : string) : string :=
  match s with
  | EmptyString => EmptyString
  | String c s' => String (lower_char c) (lower s')
  end.

(** [range(n)] *)
Definition range (n : Z) : list Z := map Z.of_nat (seq 0 (Z.to_nat n)).

(** The values of a constraint dictionary: a string under ["type"], a
    function of the point under ["fun"]. *)
Inductive cval :=
| CStr (s : string)
| CFun (g : ndarray -> exn + float).

(** The values of the minimizer's keyword arguments. *)
Inductive kwval (Callback : Type) :=
| VStr (s : string)
| VBounds (b : list (float * float))
| VConstraints (c : list (gmap string cval))
| VOptions (o : gmap string float)
| VCallback (cb : option Callback).
Arguments VStr {Callback} _.
Arguments VBounds {Callback} _.
Arguments VConstraints {Callback} _.
Arguments VOptions {Callback} _.
Arguments VCallback {Callback} _.

(** The methods [_setup_method] refuses. *)
Definition unsupported : list string := ["anneal"; "cobyla"].

(** The two constraint expressions of the constructor. *)
Definition constraint_lo : ndarray -> exn + float :=
  fun x => Np.min (Np.add x 5).

Definition constraint_hi : ndarray -> exn + float :=
  fun x => Np.min (Np.neg (Np.sub x 5)).

Section Methods.
Context {F : Type} `{LoggingFunction F}.
(** The objective, the start point, a callback and the result of the outer
    loop are whatever the caller and the outer loop agree on. *)
Context {Fun X0 Callback Result : Type}.

Abbreviation kwargs := (gmap string (kwval Callback)).

(** The calling convention of [scipy.optimize.basinhopping]:
    [outer_loop(fun, x0, callback = ..., minimizer_kwargs = ...)]. *)
Definition OuterLoop : Type :=
  Fun -> X0 -> option Callback -> kwargs -> Result.

Record t := {
  name : string;
  fi : FInstance F;
  outer_loop : OuterLoop;
  minimizer_kwargs : kwargs
}.

Definition unsupported_msg (name : string) : string :=
  "MinimizationMethod does not support method " ++ pct_s name
  ++ " (does not provide callback functionality).".

(** [_setup_method] raises before it stores anything: on a refused name
    the object stays as the caller holds it. *)
Definition _setup_method (name0 : string) (self : t) : exn + t :=
  if existsb (String.eqb (lower name0)) unsupported
  then inl (RuntimeError (unsupported_msg name0))
  else inr {| name := name self;
              fi := fi self;
              outer_loop := outer_loop self;
              minimizer_kwargs :=
                <["method" := VStr name0]> (minimizer_kwargs self) |}.

(** The constructor; [so_basinhopping] is [scipy.optimize.basinhopping].
    The four attributes are assigned on the object under construction
    (lines 73-88) before [_setup_method] runs (line 90). When that raises,
    the exception leaves the constructor and the object keeps what was
    assigned on it: the result is the exception together with the object
    as it is at the raise. Otherwise the result is the object as
    [_setup_method] leaves it. *)
Definition __init__ (so_basinhopping : OuterLoop) (name0 : string)
    (fi0 : FInstance F) : exn * t + t :=
  let self :=
    {| name := name0;
       fi := fi0;
       outer_loop := so_basinhopping;
       minimizer_kwargs :=
         <["bounds" := VBounds (map (fun d => ((-6)%float, 6%float))
                                    (range (dim fi0)))]>
         (<["constraints" :=
              VConstraints
                [ <["type" := CStr "ineq"]> (<["fun" := CFun constraint_lo]> ∅);
                  <["type" := CStr "ineq"]> (<["fun" := CFun constraint_hi]> ∅) ]]>
         (<["options" := VOptions (<["rhoend" := precision (f fi0)]> ∅)]> ∅)) |} in
  match _setup_method name0 self with
  | inl e => inl (e, self)
  | inr self' => inr self'
  end.

(** [dict(callback = inner_cb, **self.minimizer_kwargs)]: a key given
    twice is a [TypeError]. *)
Definition with_callback (inner_cb : option Callback) (kw : kwargs)
    : exn + kwargs :=
  match kw !! "callback" with
  | Some _ =>
      inl (TypeError "dict() got multiple values for keyword argument 'callback'")
  | None => inr (<["callback" := VCallback inner_cb]> kw)
  end.

Definition __call__ (self : t) (fun_ : Fun) (x0 : X0)
    (inner_cb outer_cb : option Callback) : exn + Result :=
  match with_callback inner_cb (minimizer_kwargs self) with
  | inl e => inl e
  | inr kw => inr (outer_loop self fun_ x0 outer_cb kw)
  end.

(** The functions a constraint-aware minimizer reads from the keyword
    arguments: [c['fun']] for each [c] of [constraints]. *)
Definition constraint_funs (kw : kwargs) : list (ndarray -> exn + float) :=
  match kw !! "constraints" with
  | Some (VConstraints cs) =>
      omap (fun c : gmap string cval =>
              match c !! "fun" with
              | Some (CFun g) => Some g
              | _ => None
              end) cs
  | _ => []
  end.

End Methods.

(** A point lies in the box [[lo, hi]] in every coordinate. *)
Definition in_box (lo hi : float) (x : ndarray) : bool :=
  forallb (fun xi => (lo <=? xi)%float && (xi <=? hi)%float) x.

(** A constraint of type ["ineq"] holds where its function is not
    negative. *)
Definition satisfied (v : exn + float) : bool :=
  match v with
  | inr y => (0 <=? y)%float
  | inl _ => false
  end.

End MinimizeMethod.

(** ** A function object to run the model on

    A stand-in for the BBOB function object with the attributes the
    code reads; [_setdim] and [_readytostart] only set their flags. *)

Module Scenario.
Import Bbob.

Record fgeneric := {
  fg_lasteval : LastEval;
  fg_fopt : float;
  fg_precision : float;
  fg_datafile : string;
  fg_is_setdim : bool;
  fg_dim : Z;
  fg_ready : bool
}.

#[export] Instance fgeneric_function : LoggingFunction fgeneric := {
  lasteval := fg_lasteval;
  fopt := fg_fopt;
  precision := fg_precision;
  datafile := fg_datafile;
  _is_setdim := fg_is_setdim;
  _dim := fg_dim;
  _setdim d g :=
    {| fg_lasteval := fg_lasteval g; fg_fopt := fg_fopt g;
       fg_precision := fg_precision g; fg_datafile := fg_datafile g;
       fg_is_setdim := true; fg_dim := d; fg_ready := fg_ready g |};
  _is_ready := fg_ready;
  _readytostart g :=
    {| fg_lasteval := fg_lasteval g; fg_fopt := fg_fopt g;
       fg_precision := fg_precision g; fg_datafile := fg_datafile g;
       fg_is_setdim := fg_is_setdim g; fg_dim := fg_dim g; fg_ready := true |}
}.

(** A fresh function object: no evaluation yet, optimum [79.5]. *)
Definition sphere : fgeneric :=
  {| fg_lasteval := {| num := 0; bestf := infinity |};
     fg_fopt := 79.5%float;
     fg_precision := 0x1p-27%float;
     fg_datafile := "ppdata/data_f1/bbobexp_f1_DIM2.dat";
     fg_is_setdim := false; fg_dim := 0; fg_ready := false |}.

Definition fi2 : FInstance fgeneric := {| dim := 2; f := sphere |}.

(** An evaluation that brings the counter to [n] and the best fitness to
    [b]. *)
Definition evaluated (n : Z) (b : float) (g : fgeneric) : fgeneric :=
  {| fg_lasteval := {| num := n; bestf := b |}; fg_fopt := fg_fopt g;
     fg_precision := fg_precision g; fg_datafile := fg_datafile g;
     fg_is_setdim := fg_is_setdim g; fg_dim := fg_dim g;
     fg_ready := fg_ready g |}.

(** An outer loop that only reports what it was called with. *)
Definition echo_loop : @MinimizeMethod.OuterLoop nat nat nat
    (nat * nat * option nat * gmap string (MinimizeMethod.kwval nat)) :=
  fun fun_ x0 cb kw => (fun_, x0, cb, kw).

(** The object the constructor returns for ["BFGS"] and [fi2]. *)
Definition bfgs : MinimizeMethod.t :=
  match MinimizeMethod.__init__ echo_loop "BFGS" fi2 with
  | inr m => m
  | inl _ =>
      {| MinimizeMethod.name := ""; MinimizeMethod.fi := fi2;
         MinimizeMethod.outer_loop := echo_loop;
         MinimizeMethod.minimizer_kwargs := ∅ |}
  end.

End Scenario.

(** * Properties *)

(** ** Strings *)

Module StringFacts.
Import Fmt.

#[local] Arguments String.append !s1 s2 : simpl nomatch.

Lemma append_assoc (a b c : string) : (a ++ b) ++ c = a ++ (b ++ c).
Proof. induction a as [|x a IH]; simpl; [reflexivity | now rewrite IH]. Qed.

Lemma append_nil_r (a : string) : a ++ "" = a.
Proof. induction a as [|x a IH]; simpl; [reflexivity | now rewrite IH]. Qed.

Lemma append_inv_head (a b c : string) : a ++ b = a ++ c -> b = c.
Proof.
  induction a as [|x a IH]; simpl; intros E; [exact E |].
  injection E as E. now apply IH.
Qed.

Lemma append_sp (s : string) : " " ++ s = String sp s.
Proof. reflexivity. Qed.

Lemma count_app (c : ascii) (a b : string) :
  count c (a ++ b) = (count c a + count c b)%nat.
Proof.
  induction a as [|x a IH]; simpl; [reflexivity |].
  rewrite IH. lia.
Qed.

Lemma count_spaces_nl (n : nat) : count nl (spaces n) = O.
Proof. induction n as [|n IH]; simpl; [reflexivity | exact IH]. Qed.

(** The digits of a decimal numeral hold neither a newline nor a space. *)
Lemma count_uint (c : ascii) (u : Decimal.uint) :
  c = nl \/ c = sp -> count c (NilEmpty.string_of_uint u) = O.
Proof.
  intros [-> | ->]; induction u as [|u IH|u IH|u IH|u IH|u IH|u IH|u IH|u IH|u IH|u IH];
    simpl; try reflexivity; exact IH.
Qed.

Lemma count_pct_d (c : ascii) (z : Z) : c = nl \/ c = sp -> count c (pct_d z) = O.
Proof.
  intros Hc. unfold pct_d, NilZero.string_of_int.
  assert (Hu : forall u, count c (NilZero.string_of_uint u) = O).
  { intros u. unfold NilZero.string_of_uint.
    destruct u; try (now apply count_uint).
    destruct Hc as [-> | ->]; reflexivity. }
  destruct (Z.to_int z) as [u | u]; [apply Hu |].
  change (count c (String "-" (NilZero.string_of_uint u)) = O).
  simpl. rewrite Hu. destruct Hc as [-> | ->]; reflexivity.
Qed.

Lemma count_mant_part_nl (d : Z) : count nl (mant_part d) = O.
Proof.
  unfold mant_part. pose proof (count_pct_d nl d (or_introl eq_refl)) as Hd.
  destruct (pct_d d) as [|a rest]; [reflexivity |].
  simpl in Hd |- *.
  destruct (Ascii.eqb a nl); simpl in *; [discriminate | exact Hd].
Qed.

Lemma count_exp_part_nl (k : Z) : count nl (exp_part k) = O.
Proof.
  unfold exp_part. rewrite !count_app, count_pct_d by now left.
  destruct (k <? 0), (Z.abs k <? 10); reflexivity.
Qed.

(** ['%+10.9e'] never prints a newline. *)
Lemma count_pct_e_nl (x : float) : count nl (pct_e x) = O.
Proof.
  unfold pct_e, rjust. rewrite count_app, count_spaces_nl.
  destruct (Prim2SF x) as [s | s | | s m e].
  - destruct s; reflexivity.
  - destruct s; reflexivity.
  - reflexivity.
  - destruct (sci_digits m e) as [d k].
    rewrite !count_app, count_mant_part_nl, count_exp_part_nl.
    destruct s; reflexivity.
Qed.

(** A text without the separator is the first field of what follows. *)
Lemma split_first (c : ascii) (a b : string) :
  count c a = O -> split c (a ++ String c b) = a :: split c b.
Proof.
  induction a as [|x a IH]; simpl; intros Hc.
  - now rewrite Ascii.eqb_refl.
  - destruct (Ascii.eqb x c); [discriminate |].
    rewrite IH by exact Hc. reflexivity.
Qed.

End StringFacts.

(** ** Floats: Python's [==] *)

Module FloatFacts.

(** Two floats that compare equal compare alike with any third one: [==]
    identifies the two zeros and nothing else. *)
Lemma eqb_congr (x b v : float) :
  (b =? v)%float = true -> (x =? v)%float = (x =? b)%float.
Proof.
  rewrite !FloatAxioms.eqb_spec. unfold SFeqb.
  destruct (Prim2SF x) as [sx | sx | | sx mx ex],
           (Prim2SF b) as [sb | sb | | sb mb eb],
           (Prim2SF v) as [sv | sv | | sv mv ev];
    simpl; try reflexivity; try discriminate;
    try (destruct sx, sb, sv; simpl; intros; try reflexivity; discriminate).
  intros Hbv.
  assert (Hsame : sb = sv /\ eb = ev /\ mb = mv).
  { destruct sb, sv; try discriminate;
      destruct (Z.compare_spec eb ev) as [He | |]; try discriminate;
      destruct (Pos.compare_cont Eq mb mv) eqn:Hm; try discriminate;
      apply Pos.compare_eq in Hm; auto. }
  destruct Hsame as (-> & -> & ->). reflexivity.
Qed.

End FloatFacts.

(** ** The stepping log *)

Module SteppingFacts.
Import Bbob Fmt SteppingData StringFacts.

#[local] Arguments String.append !s1 s2 : simpl nomatch.

(** A field of the state [record] returns: split the pair [step_line]
    gives and read the field off. *)
Ltac record_field :=
  unfold record;
  match goal with
  | |- context [step_line ?self ?fn ?i ?name ?iters ?fitness ?point] =>
      destruct (step_line self fn i name iters fitness point) as [? ?]
  end;
  reflexivity.

Section WithFunction.
Context {F : Type} `{LoggingFunction F}.

(** [record] appends its line and a newline to the log, whatever was
    flushed before. *)
Lemma record_log i name iters fitness point (self : t) (w : World F) :
  log_text (record i name iters fitness point self w)
  = log_text (self, w)
    ++ fst (step_line self (fobj w) i name iters fitness point) ++ String nl "".
Proof.
  unfold record, log_text, File.contents, File.flush, File.write.
  destruct (step_line self (fobj w) i name iters fitness point) as [res lb].
  simpl. rewrite lookup_insert_eq. simpl.
  now rewrite append_nil_r, append_assoc.
Qed.

Lemma record_last_best i name iters fitness point (self : t) (w : World F) :
  last_best (fst (record i name iters fitness point self w))
  = snd (step_line self (fobj w) i name iters fitness point).
Proof. record_field. Qed.

Lemma record_total_iters i name iters fitness point (self : t) (w : World F) :
  total_iters (fst (record i name iters fitness point self w))
  = total_iters self.
Proof. record_field. Qed.

Lemma record_fobj i name iters fitness point (self : t) (w : World F) :
  fobj (snd (record i name iters fitness point self w)) = fobj w.
Proof. record_field. Qed.

Lemma record_path i name iters fitness point (self : t) (w : World F) :
  File.path (datafile (fst (record i name iters fitness point self w)))
  = File.path (datafile self).
Proof. record_field. Qed.

Lemma run_app (cs1 cs2 : list call) (st : t * World F) :
  run (cs1 ++ cs2) st = run cs2 (run cs1 st).
Proof. unfold run. apply fold_left_app. Qed.

Lemma run_cons (c : call) (cs : list call) (st : t * World F) :
  run (c :: cs) st = run cs (step c st).
Proof. reflexivity. Qed.

Lemma tracks_run (cs : list call) (st : t * World F) (acc : option float) :
  tracks (last_best (fst st)) acc ->
  tracks (last_best (fst (run cs st)))
         (last_offset cs (fobj (snd st)) acc).
Proof.
  revert st acc.
  induction cs as [|c cs IH]; intros [self w] acc Hacc; [exact Hacc |].
  rewrite run_cons.
  destruct c as [| i name iters fitness point | g]; simpl last_offset.
  - apply IH. exact Hacc.
  - simpl step.
    specialize (IH (record i name iters fitness point self w)
                   (Some (offset (fobj w)))).
    rewrite record_fobj in IH. apply IH. rewrite record_last_best.
    unfold step_line, offset. simpl fst. simpl snd.
    destruct (changed (last_best self) _) eqn:Hch; simpl; [now left |].
    unfold changed in Hch.
    destruct (last_best self) as [v |]; [| discriminate].
    right. now apply negb_false_iff in Hch.
  - apply IH. exact Hacc.
Qed.

(** On a freshly opened log nothing is stored. *)
Lemma init_last_best (fi : FInstance F) (fs0 : File.files) :
  last_best (fst (__init__ fi fs0)) = None.
Proof.
  unfold __init__.
  destruct (File.open_append _ fs0) as [h fs1]. reflexivity.
Qed.

Lemma changed_tracks (lb prev : option float) (best : float) :
  tracks lb prev ->
  changed lb best
  = match prev with None => true | Some b => negb (best =? b)%float end.
Proof.
  unfold tracks, changed.
  destruct lb as [v |], prev as [b |]; try tauto.
  intros [-> | Hb]; [reflexivity |].
  now rewrite (FloatFacts.eqb_congr best b v Hb).
Qed.

Lemma last_offset_none (cs : list call) (fn : F) (acc : option float) :
  last_offset cs fn acc = None <-> acc = None /\ filter is_record cs = [].
Proof.
  revert fn acc.
  induction cs as [|c cs IH]; intros fn acc; [simpl; tauto |].
  destruct c as [| i name iters fitness point | g]; simpl; rewrite IH.
  - tauto.
  - split; [intros [E _]; discriminate | intros [_ E]; discriminate].
  - tauto.
Qed.

Lemma last_offset_none_iff (cs : list call) (fn : F) :
  last_offset cs fn None = None <-> filter is_record cs = [].
Proof. rewrite last_offset_none. tauto. Qed.

(** C1. In every run on a freshly constructed log, a [record] call
    appends the best offset (the best fitness of the last evaluation minus
    the known optimum) to its line exactly when no [record] call came
    before, or the offset differs ([!=]) from the one the preceding
    [record] call computed, which is what [last_best] holds up to [==];
    that is exactly when [self.last_best is None or best != self.last_best]
    holds, and then [last_best] becomes the new offset, and is left as it
    was otherwise. *)
Theorem record_best_offset_iff_changed
    (fi : FInstance F) (fs0 : File.files) (cs : list call)
    (i : Z) (name : string) (iters : Z) (fitness : float) (point : ndarray) :
  let st0 := __init__ fi fs0 in
  let st := run cs st0 in
  let e := lasteval (fobj (snd st)) in
  let best := (bestf e - fopt (fobj (snd st)))%float in
  let res := fmt_step (num e) (total_iters (fst st)) i name iters fitness in
  let st' := record i name iters fitness point (fst st) (snd st) in
  let prev := last_offset cs (fobj (snd st0)) None in
  let differs :=
    match prev with None => true | Some b => negb (best =? b)%float end in
  (prev = None <-> filter is_record cs = [])
  /\ (prev = None <-> last_best (fst st) = None)
  /\ changed (last_best (fst st)) best = differs
  /\ (log_text st' = log_text st ++ (res ++ " " ++ pct_e best) ++ String nl ""
      <-> differs = true)
  /\ (log_text st' = log_text st ++ res ++ String nl ""
      <-> differs = false)
  /\ last_best (fst st')
     = (if differs then Some best else last_best (fst st)).
Proof.
  intros st0 st e best res st' prev differs.
  assert (Htr : tracks (last_best (fst st)) prev).
  { apply tracks_run. unfold st0. rewrite init_last_best. exact I. }
  assert (Hch : changed (last_best (fst st)) best = differs)
    by (apply changed_tracks; exact Htr).
  assert (Hline : step_line (fst st) (fobj (snd st)) i name iters fitness point
                  = if differs then (res ++ " " ++ pct_e best, Some best)
                    else (res, last_best (fst st))).
  { unfold step_line. fold e. fold best. fold res. now rewrite Hch. }
  assert (Hlog : log_text st' = log_text st
                 ++ fst (if differs then (res ++ " " ++ pct_e best, Some best)
                         else (res, last_best (fst st))) ++ String nl "").
  { unfold st'. destruct st as [self w]. rewrite record_log.
    simpl fst in *. simpl snd in *. now rewrite Hline. }
  split; [apply last_offset_none_iff |].
  repeat split.
  - intros Hp. unfold tracks in Htr. rewrite Hp in Htr.
    destruct (last_best (fst st)); [contradiction | reflexivity].
  - intros Hl. unfold tracks in Htr. rewrite Hl in Htr.
    destruct prev; [contradiction | reflexivity].
  - exact Hch.
  - rewrite Hlog. destruct differs; [reflexivity |]. simpl fst.
    intros E. apply append_inv_head in E.
    rewrite append_assoc in E. apply append_inv_head in E. discriminate.
  - intros Hd. rewrite Hlog, Hd. reflexivity.
  - rewrite Hlog. destruct differs; [| reflexivity]. simpl fst.
    intros E. apply append_inv_head in E.
    rewrite append_assoc in E. apply append_inv_head in E. discriminate.
  - intros Hd. rewrite Hlog, Hd. reflexivity.
  - unfold st'. rewrite record_last_best, Hline. now destruct differs.
Qed.

(** *** The iteration counter *)

Lemma total_iters_run (cs : list call) (st : t * World F) :
  total_iters (fst (run cs st))
  = total_iters (fst st) + Z.of_nat (length (filter is_end_iter cs)).
Proof.
  revert st. induction cs as [|c cs IH]; intros [self w]; [simpl; lia |].
  rewrite run_cons, IH.
  destruct c as [| i name iters fitness point | g]; simpl filter; simpl step.
  - simpl. lia.
  - rewrite record_total_iters. reflexivity.
  - reflexivity.
Qed.

Lemma init_total_iters (fi : FInstance F) (fs0 : File.files) :
  total_iters (fst (__init__ fi fs0)) = 0.
Proof.
  unfold __init__.
  destruct (File.open_append _ fs0) as [h fs1]. reflexivity.
Qed.

(** The second space-separated field of a step's text is the counter. *)
Lemma step_line_second_field (self : t) (fn : F) i name iters fitness point :
  nth_error (split sp (fst (step_line self fn i name iters fitness point))) 1
  = Some (pct_d (total_iters self)).
Proof.
  assert (Hres : forall tl : string,
    nth_error
      (split sp (fmt_step (num (lasteval fn)) (total_iters self) i name
                          iters fitness ++ tl)) 1
    = Some (pct_d (total_iters self))).
  { intros tl. unfold fmt_step. rewrite !append_assoc.
    rewrite !append_sp.
    rewrite split_first by (apply count_pct_d; now right).
    rewrite split_first by (apply count_pct_d; now right).
    reflexivity. }
  unfold step_line. destruct (changed _ _); simpl fst.
  - apply Hres.
  - rewrite <- (append_nil_r (fmt_step _ _ _ _ _ _)). apply Hres.
Qed.

(** C6. The counter is [0] on a new log and counts the [end_iter] calls
    of the run: [end_iter] adds exactly one, [record] and the evaluations
    in between leave it alone; and the line a [record] call writes has the
    counter's current value, as ['%d'] prints it, for its second
    space-separated field. *)
Theorem end_iter_counts_second_field
    (fi : FInstance F) (fs0 : File.files) (cs : list call)
    (i : Z) (name : string) (iters : Z) (fitness : float) (point : ndarray) :
  let st := run cs (__init__ fi fs0) in
  let st' := record i name iters fitness point (fst st) (snd st) in
  total_iters (fst (__init__ fi fs0)) = 0
  /\ total_iters (fst st) = Z.of_nat (length (filter is_end_iter cs))
  /\ total_iters (fst (step EndIter st)) = total_iters (fst st) + 1
  /\ total_iters (fst st') = total_iters (fst st)
  /\ (forall g, total_iters (fst (step (Evaluate g) st)) = total_iters (fst st))
  /\ exists line : string,
       log_text st' = log_text st ++ line ++ String nl ""
       /\ nth_error (split sp line) 1 = Some (pct_d (total_iters (fst st))).
Proof.
  intros st st'.
  split; [apply init_total_iters |].
  split; [unfold st; rewrite total_iters_run, init_total_iters; lia |].
  split; [reflexivity |].
  split; [unfold st'; apply record_total_iters |].
  split; [reflexivity |].
  exists (fst (step_line (fst st) (fobj (snd st)) i name iters fitness point)).
  split.
  - unfold st'. destruct st as [self w]. apply record_log.
  - apply step_line_second_field.
Qed.

(** *** The point argument *)

Lemma step_erase_point (c : call) (st : t * World F) :
  step (erase_point c) st = step c st.
Proof. destruct c; reflexivity. Qed.

Lemma run_erase_point (cs : list call) (st : t * World F) :
  run (map erase_point cs) st = run cs st.
Proof.
  revert st. induction cs as [|c cs IH]; intros st; [reflexivity |].
  simpl map. rewrite !run_cons, step_erase_point. apply IH.
Qed.

(** C9. [record] does not read its [point] argument. Two calls that
    differ in the point only write the same line and leave the same log
    state and the same world; and two runs whose calls agree up to the
    points end in the same state, with the same text in the log. *)
Theorem record_ignores_point
    (i : Z) (name : string) (iters : Z) (fitness : float)
    (point point' : ndarray) (self : t) (w : World F)
    (cs cs' : list call) (st : t * World F) :
  record i name iters fitness point self w
  = record i name iters fitness point' self w
  /\ step_line self (fobj w) i name iters fitness point
     = step_line self (fobj w) i name iters fitness point'
  /\ (map erase_point cs = map erase_point cs' ->
      run cs st = run cs' st /\ log_text (run cs st) = log_text (run cs' st)).
Proof.
  split; [reflexivity |]. split; [reflexivity |].
  intros Hcs.
  assert (Hrun : run cs st = run cs' st).
  { rewrite <- (run_erase_point cs), <- (run_erase_point cs'), Hcs.
    reflexivity. }
  split; [exact Hrun | now rewrite Hrun].
Qed.

(** *** What each method leaves alone *)

Lemma record_other_files i name iters fitness point (self : t) (w : World F)
    (p : string) :
  p <> File.path (datafile self) ->
  fs (snd (record i name iters fitness point self w)) !! p = fs w !! p.
Proof.
  intros Hp. unfold record.
  destruct (step_line self (fobj w) i name iters fitness point) as [res lb].
  simpl. rewrite lookup_insert_ne by congruence. reflexivity.
Qed.

(** C10. [end_iter] changes the counter only: the stored best value, the
    file handle, the function object, every file and so the text of the
    log stay as they are. [record] leaves the counter, the function
    object, the path of the handle and every other file as they are. *)
Theorem end_iter_record_frame
    (i : Z) (name : string) (iters : Z) (fitness : float) (point : ndarray)
    (self : t) (w : World F) :
  let st1 := step EndIter (self, w) in
  let st2 := step (Record_ i name iters fitness point) (self, w) in
  (last_best (fst st1) = last_best self
   /\ datafile (fst st1) = datafile self
   /\ snd st1 = w
   /\ log_text st1 = log_text (self, w))
  /\ (total_iters (fst st2) = total_iters self
      /\ fobj (snd st2) = fobj w
      /\ File.path (datafile (fst st2)) = File.path (datafile self)
      /\ forall p : string,
           p <> File.path (datafile self) -> fs (snd st2) !! p = fs w !! p).
Proof.
  intros st1 st2. split; [repeat split |].
  unfold st2. simpl step.
  split; [apply record_total_iters |].
  split; [apply record_fobj |].
  split; [apply record_path |].
  intros p. apply record_other_files.
Qed.

(** *** Lines of the log *)

(** A number printed with ['%d'] never starts a comment line. *)
Lemma is_comment_pct_d (z : Z) (s : string) : is_comment (pct_d z ++ s) = false.
Proof.
  unfold pct_d, NilZero.string_of_int.
  destruct (Z.to_int z) as [u | u]; [| reflexivity].
  unfold NilZero.string_of_uint. destruct u; reflexivity.
Qed.

Lemma count_nl_fmt_step num ti i name iters fitness :
  count nl name = O -> count nl (fmt_step num ti i name iters fitness) = O.
Proof.
  intros Hname. unfold fmt_step, pct_s.
  rewrite !count_app. rewrite !count_pct_d by now left.
  rewrite count_pct_e_nl, Hname.
  reflexivity.
Qed.

(** With a name free of newlines, the text of a step is one line, and not
    a comment. *)
Lemma step_line_one_line (self : t) (fn : F) i name iters fitness point :
  count nl name = O ->
  let line := fst (step_line self fn i name iters fitness point) in
  count nl line = O /\ is_comment line = false.
Proof.
  intros Hname line. unfold line, step_line. cbv zeta.
  destruct (changed _ _); simpl fst; split.
  - rewrite !count_app. cbn [count]. rewrite count_pct_e_nl.
    rewrite count_nl_fmt_step by exact Hname.
    reflexivity.
  - unfold fmt_step. rewrite ?append_assoc. apply is_comment_pct_d.
  - now apply count_nl_fmt_step.
  - unfold fmt_step. rewrite ?append_assoc. apply is_comment_pct_d.
Qed.

Lemma init_log (fi : FInstance F) (fs0 : File.files) :
  let st0 := __init__ fi fs0 in
  log_text st0
  = default "" (fs0 !! File.path (datafile (fst st0))) ++ header.
Proof.
  unfold __init__, log_text, File.contents, File.open_append, File.write.
  simpl. rewrite lookup_insert_eq. reflexivity.
Qed.

Lemma unlines_cons_log (a l u : string) :
  (a ++ l ++ String nl "") ++ u = a ++ l ++ String nl u.
Proof. now rewrite !append_assoc. Qed.

(** A run whose names are free of newlines appends one line per [record]
    call, and no comment. *)
Lemma run_lines (cs : list call) (st : t * World F) :
  existsb name_has_nl cs = false ->
  exists lines : list string,
    log_text (run cs st) = log_text st ++ unlines lines
    /\ length lines = length (filter is_record cs)
    /\ Forall (fun l => count nl l = O /\ is_comment l = false) lines.
Proof.
  revert st. induction cs as [|c cs IH]; intros [self w] Hcs.
  - exists []. simpl. now rewrite append_nil_r.
  - simpl in Hcs. apply orb_false_iff in Hcs as [Hc Hcs].
    rewrite run_cons.
    destruct (IH (step c (self, w)) Hcs) as (lines & Hlog & Hlen & Hall).
    destruct c as [| i name iters fitness point | g].
    + exists lines. repeat split; assumption.
    + simpl in Hc. apply negb_false_iff, Nat.eqb_eq in Hc.
      exists (fst (step_line self (fobj w) i name iters fitness point) :: lines).
      split; [| split].
      * rewrite Hlog. simpl step. rewrite record_log.
        simpl unlines. apply unlines_cons_log.
      * simpl. now rewrite Hlen.
      * constructor; [| exact Hall].
        now apply step_line_one_line.
    + exists lines. repeat split; assumption.
Qed.

(** C7, amended. A [record] call whose method name holds no newline
    character appends exactly one newline-terminated line, which does not
    start with ['%'], whatever was logged before; and when no name of a
    run holds a newline, what the run has added to the file since the log
    was opened for appending is the header, a single ['%'] line, once,
    followed by one such line per [record] call, however many [record] and
    [end_iter] calls the run makes. *)
Theorem record_appends_one_line
    (fi : FInstance F) (fs0 : File.files) (cs : list call)
    (i : Z) (name : string) (iters : Z) (fitness : float) (point : ndarray) :
  let st0 := __init__ fi fs0 in
  let st := run cs st0 in
  let old := default "" (fs0 !! File.path (datafile (fst st0))) in
  (count nl name = O ->
   forall (self : t) (w : World F),
   exists line : string,
     log_text (record i name iters fitness point self w)
     = log_text (self, w) ++ line ++ String nl ""
     /\ count nl line = O /\ is_comment line = false)
  /\ (is_comment header = true /\ count nl header = 1%nat)
  /\ (existsb name_has_nl cs = false ->
      exists lines : list string,
        log_text st = old ++ header ++ unlines lines
        /\ length lines = length (filter is_record cs)
        /\ Forall (fun l => count nl l = O /\ is_comment l = false) lines).
Proof.
  intros st0 st old.
  split; [| split; [split; reflexivity |]].
  - intros Hname self w.
    exists (fst (step_line self (fobj w) i name iters fitness point)).
    split; [apply record_log | now apply step_line_one_line].
  - intros Hcs.
    destruct (run_lines cs st0 Hcs) as (lines & Hlog & Hlen & Hall).
    exists lines. split; [| split; assumption].
    unfold st. rewrite Hlog. unfold st0 at 1. rewrite init_log.
    fold st0. fold old. apply append_assoc.
Qed.

End WithFunction.

(** *** The scenarios of the specification, run *)

Import Scenario.

(** Scenario C: two [record] calls with the same best offset, then a
    third with a changed one; the second line has no seventh field. *)
Example scenario_differential_encoding :
  log_text
    (run [ Evaluate (evaluated 3 0x1.3e02p+6);
           Record_ 0 "BFGS" 1 0x1.3e02p+6 [1; 2];
           Evaluate (evaluated 5 0x1.3e02p+6);
           Record_ 0 "BFGS" 2 0x1.3e04p+6 [1; 2];
           EndIter;
           Evaluate (evaluated 8 0x1.3e01p+6);
           Record_ 0 "BFGS" 1 0x1.3e01p+6 [0; 1] ]%float
         (__init__ fi2 ∅))
  = header
    ++ unlines [ "3 0 0 BFGS 1 +7.950195312e+01 +1.953125000e-03";
                 "5 0 0 BFGS 2 +7.950390625e+01";
                 "8 1 0 BFGS 1 +7.950097656e+01 +9.765625000e-04" ].
Proof. vm_compute. reflexivity. Qed.

(** C7, as stated, fails for a method name that holds a newline: the one
    call below adds two newline-terminated lines to the log. *)
Lemma record_name_with_newline_two_lines :
  log_text (record 0 ("a" ++ String nl "b") 1 1%float []
                   (fst (__init__ fi2 ∅)) (snd (__init__ fi2 ∅)))
  = log_text (__init__ fi2 ∅)
    ++ unlines [ "0 0 0 a"; "b 1 +1.000000000e+00       +inf" ]
  /\ count nl (log_text (record 0 ("a" ++ String nl "b") 1 1%float []
                                (fst (__init__ fi2 ∅)) (snd (__init__ fi2 ∅))))
     = (count nl (log_text (__init__ fi2 ∅)) + 2)%nat.
Proof. split; vm_compute; reflexivity. Qed.

Lemma record_appends_one_line_witness :
  count nl "CG" = O
  /\ exists line : string,
       log_text
         (record 1 "CG" 2 80%float []
            (fst (run [Record_ 0 ("a" ++ String nl "b") 1 1%float []; EndIter;
                       Evaluate (evaluated 4 80%float)] (__init__ fi2 ∅)))
            (snd (run [Record_ 0 ("a" ++ String nl "b") 1 1%float []; EndIter;
                       Evaluate (evaluated 4 80%float)] (__init__ fi2 ∅))))
       = log_text
           (fst (run [Record_ 0 ("a" ++ String nl "b") 1 1%float []; EndIter;
                      Evaluate (evaluated 4 80%float)] (__init__ fi2 ∅)),
            snd (run [Record_ 0 ("a" ++ String nl "b") 1 1%float []; EndIter;
                      Evaluate (evaluated 4 80%float)] (__init__ fi2 ∅)))
         ++ line ++ String nl ""
       /\ count nl line = O /\ is_comment line = false.
Proof.
  split; [reflexivity |].
  exact (proj1 (record_appends_one_line fi2 ∅ [] 1 "CG" 2 80%float [])
           eq_refl
           (fst (run [Record_ 0 ("a" ++ String nl "b") 1 1%float []; EndIter;
                      Evaluate (evaluated 4 80%float)] (__init__ fi2 ∅)))
           (snd (run [Record_ 0 ("a" ++ String nl "b") 1 1%float []; EndIter;
                      Evaluate (evaluated 4 80%float)] (__init__ fi2 ∅)))).
Defined.

End SteppingFacts.

(** ** The method wrapper *)

Module MethodFacts.
Import Bbob Fmt MinimizeMethod.

Section WithTypes.
Context {F : Type} `{LoggingFunction F} {Fun X0 Callback Result : Type}.
Implicit Types (so : @OuterLoop Fun X0 Callback Result)
               (fi : FInstance F) (name : string).

(** A refused name makes [_setup_method] raise, whatever the object. *)
Lemma setup_refused name (self : @t F Fun X0 Callback Result) :
  lower name = "anneal" \/ lower name = "cobyla" ->
  _setup_method name self = inl (RuntimeError (unsupported_msg name)).
Proof.
  intros Hname. unfold _setup_method, unsupported.
  destruct Hname as [-> | ->]; reflexivity.
Qed.

Lemma setup_accepted name (self : @t F Fun X0 Callback Result) :
  lower name <> "anneal" -> lower name <> "cobyla" ->
  _setup_method name self
  = inr {| MinimizeMethod.name := MinimizeMethod.name self;
           MinimizeMethod.fi := MinimizeMethod.fi self;
           outer_loop := outer_loop self;
           minimizer_kwargs :=
             <["method" := VStr name]> (minimizer_kwargs self) |}.
Proof.
  intros Ha Hc. unfold _setup_method, unsupported. simpl existsb.
  apply String.eqb_neq in Ha, Hc. now rewrite Ha, Hc.
Qed.

(** A constructed object comes from an accepted name, and holds what the
    constructor built with the name under ["method"]. *)
Lemma init_inr so name fi (m : t) :
  __init__ so name fi = inr m ->
  MinimizeMethod.name m = name
  /\ MinimizeMethod.fi m = fi
  /\ outer_loop m = so
  /\ minimizer_kwargs m !! "method" = Some (VStr name)
  /\ minimizer_kwargs m !! "bounds"
     = Some (VBounds (map (fun _ => ((-6)%float, 6%float)) (range (dim fi))))
  /\ constraint_funs (minimizer_kwargs m) = [constraint_lo; constraint_hi]
  /\ minimizer_kwargs m !! "options"
     = Some (VOptions (<["rhoend" := precision (f fi)]> ∅))
  /\ minimizer_kwargs m !! "callback" = None
  /\ dom (minimizer_kwargs m)
     = ({["method"; "bounds"; "constraints"; "options"]} : gset string).
Proof.
  unfold __init__, _setup_method.
  destruct (existsb _ unsupported); [discriminate |].
  intros [= <-]. cbn [MinimizeMethod.name MinimizeMethod.fi outer_loop minimizer_kwargs].
  repeat split.
Qed.

(** A refused name makes the constructor raise at its last line: the
    object is then as lines 73-88 built it, without a ["method"] entry. *)
Lemma init_inl so name fi (e : exn) (self : t) :
  __init__ so name fi = inl (e, self) ->
  (lower name = "anneal" \/ lower name = "cobyla")
  /\ e = RuntimeError (unsupported_msg name)
  /\ MinimizeMethod.name self = name
  /\ MinimizeMethod.fi self = fi
  /\ outer_loop self = so
  /\ minimizer_kwargs self !! "bounds"
     = Some (VBounds (map (fun _ => ((-6)%float, 6%float)) (range (dim fi))))
  /\ constraint_funs (minimizer_kwargs self) = [constraint_lo; constraint_hi]
  /\ minimizer_kwargs self !! "options"
     = Some (VOptions (<["rhoend" := precision (f fi)]> ∅))
  /\ minimizer_kwargs self !! "method" = None
  /\ dom (minimizer_kwargs self)
     = ({["bounds"; "constraints"; "options"]} : gset string).
Proof.
  unfold __init__, _setup_method, unsupported. cbn [existsb].
  destruct (String.eqb_spec (lower name) "anneal") as [Ha | Ha];
    [| destruct (String.eqb_spec (lower name) "cobyla") as [Hc | Hc]];
    cbn [orb]; try discriminate;
    intros [= <- <-];
    cbn [MinimizeMethod.name MinimizeMethod.fi outer_loop minimizer_kwargs];
    (split; [tauto |]); repeat split.
Qed.

(** C3, amended. A name whose lower-case form is ["anneal"] or ["cobyla"]
    makes the constructor raise the unsupported-method [RuntimeError], and
    no object is returned. The raise comes from [_setup_method], which the
    constructor calls at its end: the object under construction then holds
    the name, the function instance, the outer loop and the keyword
    arguments with the bounds, the constraints and the options; only the
    ["method"] entry is missing. [_setup_method] itself raises before it
    stores anything, whatever the object. *)
Theorem unsupported_method_raises so name fi :
  lower name = "anneal" \/ lower name = "cobyla" ->
  (exists self : t,
     __init__ so name fi = inl (RuntimeError (unsupported_msg name), self)
     /\ MinimizeMethod.name self = name
     /\ MinimizeMethod.fi self = fi
     /\ outer_loop self = so
     /\ minimizer_kwargs self !! "bounds"
        = Some (VBounds (map (fun _ => ((-6)%float, 6%float)) (range (dim fi))))
     /\ constraint_funs (minimizer_kwargs self) = [constraint_lo; constraint_hi]
     /\ minimizer_kwargs self !! "options"
        = Some (VOptions (<["rhoend" := precision (f fi)]> ∅))
     /\ minimizer_kwargs self !! "method" = None
     /\ dom (minimizer_kwargs self)
        = ({["bounds"; "constraints"; "options"]} : gset string))
  /\ (forall m : t, __init__ so name fi <> inr m)
  /\ (forall self : @t F Fun X0 Callback Result,
        _setup_method name self = inl (RuntimeError (unsupported_msg name))).
Proof.
  intros Hname.
  destruct (__init__ so name fi) as [[e self] | m] eqn:Hinit.
  - destruct (init_inl so name fi e self Hinit) as (_ & -> & Hrest).
    split; [exists self; split; [reflexivity | exact Hrest] |].
    split; [discriminate |].
    intros self0. now apply setup_refused.
  - exfalso. revert Hinit. unfold __init__.
    now rewrite setup_refused by exact Hname.
Qed.

(** C5. Any other name is accepted: the constructor returns an object
    whose keyword arguments hold the name, unchanged, under ["method"]. *)
Theorem supported_method_stored so name fi :
  lower name <> "anneal" -> lower name <> "cobyla" ->
  exists m : t,
    __init__ so name fi = inr m
    /\ minimizer_kwargs m !! "method" = Some (VStr name)
    /\ MinimizeMethod.name m = name.
Proof.
  intros Ha Hc. unfold __init__. rewrite setup_accepted by assumption.
  eexists. split; [reflexivity |]. split; [| reflexivity].
  cbn [minimizer_kwargs]. apply lookup_insert_eq.
Qed.

Lemma length_range (n : Z) : 0 <= n -> Z.of_nat (length (range n)) = n.
Proof. intros Hn. unfold range. rewrite length_map, length_seq. lia. Qed.

(** C4. The bounds of a constructed object are [dim] pairs, each
    [(-6, +6)]. *)
Theorem bounds_length_and_values so name fi (m : t) :
  0 <= dim fi ->
  __init__ so name fi = inr m ->
  exists bs : list (float * float),
    minimizer_kwargs m !! "bounds" = Some (VBounds bs)
    /\ Z.of_nat (length bs) = dim fi
    /\ Forall (fun b => b = ((-6)%float, 6%float)) bs.
Proof.
  intros Hdim Hm.
  destruct (init_inr so name fi m Hm) as (_ & _ & _ & _ & Hb & _).
  eexists. split; [exact Hb |]. split.
  - rewrite length_map. now apply length_range.
  - apply Forall_forall. intros b Hin.
    apply list_elem_of_In, in_map_iff in Hin as (d & <- & _). reflexivity.
Qed.

(** C8. Calling a constructed object calls the outer loop it was built
    with on the objective, the start point, the outer callback and the
    stored keyword arguments with the inner callback added under
    ["callback"], and returns the result as it is: the arguments passed
    are the method, bounds, constraints and options of the object and the
    callback, nothing else. The same holds for any object whose keyword
    arguments have no ["callback"] entry yet. *)
Theorem call_delegates_to_outer_loop so name fi (m : t)
    (fun_ : Fun) (x0 : X0) (inner_cb outer_cb : option Callback) :
  __init__ so name fi = inr m ->
  let kw := <["callback" := VCallback inner_cb]> (minimizer_kwargs m) in
  __call__ m fun_ x0 inner_cb outer_cb = inr (so fun_ x0 outer_cb kw)
  /\ kw !! "callback" = Some (VCallback inner_cb)
  /\ kw !! "method" = Some (VStr name)
  /\ (forall k : string, k <> "callback" -> kw !! k = minimizer_kwargs m !! k)
  /\ dom kw = ({["callback"; "method"; "bounds"; "constraints"; "options"]}
               : gset string)
  /\ (forall self : @t F Fun X0 Callback Result,
        minimizer_kwargs self !! "callback" = None ->
        __call__ self fun_ x0 inner_cb outer_cb
        = inr (outer_loop self fun_ x0 outer_cb
                 (<["callback" := VCallback inner_cb]> (minimizer_kwargs self)))).
Proof.
  intros Hm kw.
  destruct (init_inr so name fi m Hm)
    as (_ & _ & Hso & Hmeth & _ & _ & _ & Hcb & Hdom).
  assert (Hcall : forall self : @t F Fun X0 Callback Result,
    minimizer_kwargs self !! "callback" = None ->
    __call__ self fun_ x0 inner_cb outer_cb
    = inr (outer_loop self fun_ x0 outer_cb
             (<["callback" := VCallback inner_cb]> (minimizer_kwargs self)))).
  { intros self Hself. unfold __call__, with_callback. now rewrite Hself. }
  split; [rewrite (Hcall m Hcb), Hso; reflexivity |].
  split; [apply lookup_insert_eq |].
  split; [unfold kw; rewrite lookup_insert_ne by done; exact Hmeth |].
  split; [intros k Hk; unfold kw; now rewrite lookup_insert_ne |].
  split; [| exact Hcall].
  unfold kw. rewrite dom_insert_L, Hdom. reflexivity.
Qed.

End WithTypes.

Import Scenario.

(** Scenario A: ["BFGS"] on a two-dimensional instance. *)
Example scenario_bfgs :
  exists m : t,
    __init__ echo_loop "BFGS" fi2 = inr m
    /\ minimizer_kwargs m !! "method" = Some (VStr "BFGS")
    /\ minimizer_kwargs m !! "bounds"
       = Some (VBounds [((-6)%float, 6%float); ((-6)%float, 6%float)]).
Proof. eexists. split; [reflexivity |]. split; vm_compute; reflexivity. Qed.

(** C3, as stated, fails at ["cobyla"] for the two-dimensional [fi2]: the
    constructor raises, and the object it was building is configured by
    then: it holds the name, the instance, the outer loop and keyword
    arguments with two bounds pairs, both constraint expressions and the
    options. *)
Lemma refused_name_leaves_configured_object :
  exists self : t,
    __init__ echo_loop "cobyla" fi2
    = inl (RuntimeError
             "MinimizationMethod does not support method cobyla (does not provide callback functionality).",
           self)
    /\ MinimizeMethod.name self = "cobyla"
    /\ MinimizeMethod.fi self = fi2
    /\ outer_loop self = echo_loop
    /\ minimizer_kwargs self !! "bounds"
       = Some (VBounds [((-6)%float, 6%float); ((-6)%float, 6%float)])
    /\ constraint_funs (minimizer_kwargs self) = [constraint_lo; constraint_hi]
    /\ minimizer_kwargs self !! "options"
       = Some (VOptions (<["rhoend" := 0x1p-27%float]> ∅))
    /\ dom (minimizer_kwargs self)
       = ({["bounds"; "constraints"; "options"]} : gset string).
Proof. eexists. split; [reflexivity |]. repeat split. Qed.

Lemma unsupported_method_raises_witness :
  (lower "CoByLa" = "anneal" \/ lower "CoByLa" = "cobyla")
  /\ (exists self : t,
        __init__ echo_loop "CoByLa" fi2
        = inl (RuntimeError (unsupported_msg "CoByLa"), self)
        /\ MinimizeMethod.name self = "CoByLa"
        /\ MinimizeMethod.fi self = fi2
        /\ outer_loop self = echo_loop
        /\ minimizer_kwargs self !! "bounds"
           = Some (VBounds (map (fun _ => ((-6)%float, 6%float))
                               (range (dim fi2))))
        /\ constraint_funs (minimizer_kwargs self)
           = [constraint_lo; constraint_hi]
        /\ minimizer_kwargs self !! "options"
           = Some (VOptions (<["rhoend" := precision (f fi2)]> ∅))
        /\ minimizer_kwargs self !! "method" = None
        /\ dom (minimizer_kwargs self)
           = ({["bounds"; "constraints"; "options"]} : gset string)).
Proof.
  split; [right; reflexivity |].
  exact (proj1 (unsupported_method_raises echo_loop "CoByLa" fi2
                  (or_intror eq_refl))).
Defined.

Lemma supported_method_stored_witness :
  lower "L-BFGS-B" <> "anneal" /\ lower "L-BFGS-B" <> "cobyla"
  /\ exists m : t,
       __init__ echo_loop "L-BFGS-B" fi2 = inr m
       /\ minimizer_kwargs m !! "method" = Some (VStr "L-BFGS-B")
       /\ MinimizeMethod.name m = "L-BFGS-B".
Proof.
  assert (Ha : lower "L-BFGS-B" <> "anneal") by (vm_compute; discriminate).
  assert (Hc : lower "L-BFGS-B" <> "cobyla") by (vm_compute; discriminate).
  split; [exact Ha |]. split; [exact Hc |].
  exact (supported_method_stored echo_loop "L-BFGS-B" fi2 Ha Hc).
Defined.

Lemma bounds_length_and_values_witness :
  0 <= dim fi2
  /\ __init__ echo_loop "BFGS" fi2 = inr bfgs
  /\ exists bs : list (float * float),
       minimizer_kwargs bfgs !! "bounds" = Some (VBounds bs)
       /\ Z.of_nat (length bs) = dim fi2
       /\ Forall (fun b => b = ((-6)%float, 6%float)) bs.
Proof.
  assert (Hd : 0 <= dim fi2) by (vm_compute; discriminate).
  split; [exact Hd |]. split; [reflexivity |].
  exact (bounds_length_and_values echo_loop "BFGS" fi2 bfgs Hd eq_refl).
Defined.

Lemma call_delegates_to_outer_loop_witness :
  __init__ echo_loop "BFGS" fi2 = inr bfgs
  /\ __call__ bfgs 7%nat 9%nat (Some 1%nat) None
     = inr (7%nat, 9%nat, None,
            <["callback" := VCallback (Some 1%nat)]> (minimizer_kwargs bfgs)).
Proof.
  split; [reflexivity |].
  exact (proj1 (call_delegates_to_outer_loop echo_loop "BFGS" fi2 bfgs
                  7%nat 9%nat (Some 1%nat) None eq_refl)).
Defined.

End MethodFacts.

(** ** Binary64: rounding keeps the sign *)

Module Binary64Facts.

#[local] Open Scope Z_scope.

(** The number of binary digits bounds a positive number from below. *)
Lemma digits2_pos_le (p : positive) :
  2 ^ (Zpos (digits2_pos p) - 1) <= Zpos p.
Proof.
  induction p as [p IH | p IH |]; simpl digits2_pos.
  - rewrite Pos2Z.inj_succ.
    replace (Z.succ (Zpos (digits2_pos p)) - 1)
      with (Z.succ (Zpos (digits2_pos p) - 1)) by lia.
    rewrite Z.pow_succ_r by lia. lia.
  - rewrite Pos2Z.inj_succ.
    replace (Z.succ (Zpos (digits2_pos p)) - 1)
      with (Z.succ (Zpos (digits2_pos p) - 1)) by lia.
    rewrite Z.pow_succ_r by lia. lia.
  - simpl. lia.
Qed.

Lemma digits2_pos_gt (p : positive) : Zpos p < 2 ^ Zpos (digits2_pos p).
Proof.
  induction p as [p IH | p IH |]; simpl digits2_pos.
  - rewrite Pos2Z.inj_succ, Z.pow_succ_r by lia. lia.
  - rewrite Pos2Z.inj_succ, Z.pow_succ_r by lia. lia.
  - simpl. lia.
Qed.

(** One shift to the right halves a mantissa that is not negative. *)
Lemma shr_1_m (r : shr_record) :
  0 <= shr_m r -> shr_m (shr_1 r) = shr_m r / 2.
Proof.
  destruct r as [m rb sb]. simpl shr_m. intros Hm.
  destruct m as [| p | p]; [reflexivity | | lia].
  destruct p as [p | p |]; simpl shr_m.
  - rewrite Pos2Z.inj_xI. apply Z.div_unique with (r := 1); lia.
  - rewrite Pos2Z.inj_xO. apply Z.div_unique with (r := 0); lia.
  - reflexivity.
Qed.

Lemma iter_pos_nat {A} (f : A -> A) (p : positive) (x : A) :
  SpecFloat.iter_pos f p x = Nat.iter (Pos.to_nat p) f x.
Proof.
  revert x. induction p as [p IH | p IH |]; intros x; simpl SpecFloat.iter_pos.
  - rewrite !IH, Pos2Nat.inj_xI.
    replace (S (2 * Pos.to_nat p))%nat
      with (Pos.to_nat p + (Pos.to_nat p + 1))%nat by lia.
    rewrite !Nat.iter_add. reflexivity.
  - rewrite !IH, Pos2Nat.inj_xO.
    replace (2 * Pos.to_nat p)%nat with (Pos.to_nat p + Pos.to_nat p)%nat by lia.
    rewrite Nat.iter_add. reflexivity.
  - reflexivity.
Qed.

(** Shifting out fewer bits than the mantissa has leaves it positive. *)
Lemma shr_iter_pos (n : nat) (r : shr_record) :
  2 ^ Z.of_nat n <= shr_m r -> 0 < shr_m (Nat.iter n shr_1 r).
Proof.
  revert r. induction n as [|n IH]; intros r Hr.
  - simpl in *. lia.
  - rewrite Nat.iter_succ_r. apply IH.
    rewrite Nat2Z.inj_succ, Z.pow_succ_r in Hr by lia.
    assert (0 <= shr_m r) by (pose proof (Z.pow_pos_nonneg 2 (Z.of_nat n)); lia).
    rewrite shr_1_m by assumption.
    apply Z.div_le_lower_bound; lia.
Qed.

Section Format.
Variables prec emax : Z.
Hypothesis prec_pos : 0 < prec.

Abbreviation emin := (SpecFloat.emin prec emax).
Abbreviation fexp := (SpecFloat.fexp prec emax).

(** Rounding a positive mantissa whose exponent is not below [emin]
    shifts out fewer bits than the mantissa has. *)
Lemma shr_fexp_pos (p : positive) (e : Z) (l : location) :
  emin <= e ->
  0 < shr_m (fst (shr_fexp prec emax (Zpos p) e l))
  /\ emin <= snd (shr_fexp prec emax (Zpos p) e l).
Proof.
  intros He. unfold shr_fexp, shr. simpl Zdigits2.
  destruct (fexp (Zpos (digits2_pos p) + e) - e) as [| k | k] eqn:Hk;
    simpl fst; simpl snd.
  - split; [destruct l as [| []]; simpl; lia | exact He].
  - split; [| lia].
    rewrite iter_pos_nat. apply shr_iter_pos.
    rewrite positive_nat_Z.
    assert (Hm : shr_m (shr_record_of_loc (Zpos p) l) = Zpos p)
      by (destruct l as [| []]; reflexivity).
    rewrite Hm.
    unfold SpecFloat.fexp in Hk.
    assert (Zpos k <= Zpos (digits2_pos p) - 1) by lia.
    pose proof (digits2_pos_le p).
    pose proof (Z.pow_le_mono_r 2 (Zpos k) (Zpos (digits2_pos p) - 1)).
    lia.
  - split; [destruct l as [| []]; simpl; lia | exact He].
Qed.

Lemma round_nearest_even_pos (m : Z) (l : location) :
  0 < m -> 0 < round_nearest_even m l.
Proof.
  intros Hm. destruct l as [| []]; simpl; try lia.
  destruct (Z.even m); lia.
Qed.

(** Rounding a nonzero number with an exponent not below [emin] gives a
    nonzero finite number or an infinity, of the same sign. *)
Lemma binary_round_aux_sign (sx : bool) (p : positive) (e : Z) (l : location) :
  emin <= e ->
  (exists m' e', binary_round_aux prec emax sx (Zpos p) e l = S754_finite sx m' e')
  \/ binary_round_aux prec emax sx (Zpos p) e l = S754_infinity sx.
Proof.
  intros He. unfold binary_round_aux.
  destruct (shr_fexp_pos p e l He) as [Hm1 He1].
  destruct (shr_fexp prec emax (Zpos p) e l) as [mrs' e'].
  simpl fst in Hm1. simpl snd in He1.
  pose proof (round_nearest_even_pos (shr_m mrs') (loc_of_shr_record mrs') Hm1)
    as Hr.
  destruct (round_nearest_even (shr_m mrs') (loc_of_shr_record mrs'))
    as [| q | q]; try lia.
  destruct (shr_fexp_pos q e' loc_Exact He1) as [Hm2 _].
  destruct (shr_fexp prec emax (Zpos q) e' loc_Exact) as [mrs'' e''].
  simpl fst in Hm2.
  destruct (shr_m mrs'') as [| m'' | m'']; try lia.
  destruct (e'' <=? emax - prec); [left; eauto | right; reflexivity].
Qed.

Lemma binary_round_sign (sx : bool) (p : positive) (e : Z) :
  emin <= e ->
  (exists m' e', binary_round prec emax sx p e = S754_finite sx m' e')
  \/ binary_round prec emax sx p e = S754_infinity sx.
Proof.
  intros He. unfold binary_round, shl_align.
  destruct (fexp (Zpos (digits2_pos p) + e) - e) as [| k | k] eqn:Hk.
  - now apply binary_round_aux_sign.
  - now apply binary_round_aux_sign.
  - apply binary_round_aux_sign. unfold SpecFloat.fexp. lia.
Qed.

(** Whether the normalized sum is at least zero is the sign of the
    integer sum. *)
Lemma leb_zero_normalize (z e : Z) (s0 : bool) :
  emin <= e ->
  SFleb (S754_zero s0) (binary_normalize prec emax z e false) = (0 <=? z).
Proof.
  intros He. unfold binary_normalize.
  destruct z as [| p | p].
  - reflexivity.
  - destruct (binary_round_sign false p e He) as [(m' & e' & ->) | ->];
      reflexivity.
  - destruct (binary_round_sign true p e He) as [(m' & e' & ->) | ->];
      reflexivity.
Qed.

Lemma leb_zero_opp_normalize (z e : Z) (s0 : bool) :
  emin <= e ->
  SFleb (S754_zero s0) (SFopp (binary_normalize prec emax z e false))
  = (z <=? 0).
Proof.
  intros He. unfold binary_normalize.
  destruct z as [| p | p].
  - reflexivity.
  - destruct (binary_round_sign false p e He) as [(m' & e' & ->) | ->];
      reflexivity.
  - destruct (binary_round_sign true p e He) as [(m' & e' & ->) | ->];
      reflexivity.
Qed.

End Format.


(** *** Binary64 *)

(** Aligning a mantissa to a smaller exponent multiplies it by the power
    of two in between. *)
Lemma shl_align_fst (m : positive) (e e' : Z) :
  e' <= e -> Zpos (fst (shl_align m e e')) = Zpos m * 2 ^ (e - e').
Proof.
  intros He. unfold shl_align.
  destruct (e' - e) as [| d | d] eqn:Hd; simpl fst.
  - replace (e - e') with 0 by lia. lia.
  - lia.
  - replace (e - e') with (Zpos d) by lia.
    change (Pos.iter xO m d) with (shift_pos d m).
    rewrite shift_pos_correct. change (Zpower_pos 2 d) with (2 ^ Zpos d). lia.
Qed.

(** A valid finite binary64 number: its exponent is at least [-1074];
    its mantissa has at most 53 bits, and exactly 53 above the least
    exponent. *)
Lemma valid_finite (s : bool) (m : positive) (e : Z) :
  valid_binary (S754_finite s m e) = true ->
  -1074 <= e
  /\ Zpos m < 2 ^ 53
  /\ (-1074 < e -> 2 ^ 52 <= Zpos m).
Proof.
  unfold SpecFloat.valid_binary, bounded, canonical_mantissa, SpecFloat.fexp,
    SpecFloat.emin, prec, emax.
  intros Hv. apply andb_true_iff in Hv as [Hc _]. apply Z.eqb_eq in Hc.
  pose proof (digits2_pos_le m) as Hle.
  pose proof (digits2_pos_gt m) as Hgt.
  assert (Hd : Zpos (digits2_pos m) <= 53) by lia.
  split; [lia |]. split.
  - pose proof (Z.pow_le_mono_r 2 (Zpos (digits2_pos m)) 53). lia.
  - intros He. assert (Zpos (digits2_pos m) = 53) as Hd53 by lia.
    rewrite Hd53 in Hle. exact Hle.
Qed.

(** The spec-level forms of [5] and [-5]. *)
Definition five_m : positive := 5629499534213120.

Lemma Prim2SF_five : Prim2SF 5 = S754_finite false five_m (-50).
Proof. reflexivity. Qed.

Lemma Prim2SF_minus_five : Prim2SF (-5) = S754_finite true five_m (-50).
Proof. reflexivity. Qed.

Lemma Prim2SF_zero : Prim2SF 0 = S754_zero false.
Proof. reflexivity. Qed.

Lemma emin_64 : SpecFloat.emin prec emax = -1074.
Proof. reflexivity. Qed.

(** The comparison of mantissas, read on the integers. *)
Lemma compare_cont_Eq_spec (p q : positive) :
  CompareSpec (Zpos p = Zpos q) (Zpos p < Zpos q) (Zpos q < Zpos p)
              (Pos.compare_cont Eq p q).
Proof.
  change (Pos.compare_cont Eq p q) with (Pos.compare p q).
  destruct (Pos.compare_spec p q) as [-> | Hlt | Hgt]; constructor.
  - reflexivity.
  - now apply Pos2Z.pos_lt_pos.
  - now apply Pos2Z.pos_lt_pos.
Qed.

(** Products against a power of two that is at least two. *)
Lemma pow2_ge_2 (k : Z) : 1 <= k -> 2 <= 2 ^ k.
Proof.
  intros Hk. change 2 with (2 ^ 1) at 1. apply Z.pow_le_mono_r; lia.
Qed.

Lemma small_below_scaled (a b p : Z) :
  0 < a -> a < 2 ^ 53 -> 2 ^ 52 < b -> 2 <= p -> a < b * p.
Proof.
  intros Ha Ha' Hb Hp.
  assert (b * 2 <= b * p) by (apply Z.mul_le_mono_nonneg_l; lia).
  lia.
Qed.

Lemma large_above_scaled (a b p : Z) :
  2 ^ 52 <= a -> 0 < b -> b < 2 ^ 53 -> 2 <= p -> b < a * p.
Proof.
  intros Ha Hb Hb' Hp.
  assert (a * 2 <= a * p) by (apply Z.mul_le_mono_nonneg_l; lia).
  lia.
Qed.

Lemma five_m_bounds : 2 ^ 52 < Zpos five_m /\ Zpos five_m < 2 ^ 53.
Proof. split; reflexivity. Qed.

(** [x + 5 >= 0] exactly when [x >= -5]. *)
Lemma SF_add_five_nonneg (X : spec_float) :
  valid_binary X = true ->
  SFleb (S754_zero false) (SF64add X (S754_finite false five_m (-50)))
  = SFleb (S754_finite true five_m (-50)) X.
Proof.
  intros Hv. destruct X as [s | s | | s m e].
  - destruct s; reflexivity.
  - destruct s; reflexivity.
  - reflexivity.
  - destruct (valid_finite s m e Hv) as (He & Hm & Hnorm).
    destruct five_m_bounds as [H5l H5u].
    unfold SF64add, SFadd.
    rewrite leb_zero_normalize by (try rewrite emin_64; unfold prec; lia).
    rewrite !shl_align_fst by lia.
    unfold SFleb, SFcompare.
    destruct s; simpl cond_Zopp.
    + destruct (Z.compare_spec (-50) e) as [<- | Hlt | Hgt].
      * rewrite Z.min_id, Z.sub_diag, Z.pow_0_r, !Z.mul_1_r.
        destruct (compare_cont_Eq_spec five_m m) as [Hp | Hp | Hp];
          cbn [CompOpp].
        -- apply Z.leb_le. lia.
        -- apply Z.leb_gt. lia.
        -- apply Z.leb_le. lia.
      * apply Z.leb_gt. rewrite Z.min_r by lia.
        rewrite Z.sub_diag, Z.pow_0_r, Z.mul_1_r.
        specialize (Hnorm ltac:(lia)).
        pose proof (pow2_ge_2 (e - -50) ltac:(lia)) as Hp.
        pose proof (large_above_scaled (Zpos m) (Zpos five_m) _
                      Hnorm ltac:(lia) H5u Hp).
        lia.
      * apply Z.leb_le. rewrite Z.min_l by lia.
        rewrite Z.sub_diag, Z.pow_0_r, Z.mul_1_r.
        pose proof (pow2_ge_2 (-50 - e) ltac:(lia)) as Hp.
        pose proof (small_below_scaled (Zpos m) (Zpos five_m) _
                      ltac:(lia) Hm H5l Hp).
        lia.
    + apply Z.leb_le.
      pose proof (Z.pow_pos_nonneg 2 (e - Z.min e (-50)) ltac:(lia) ltac:(lia)).
      pose proof (Z.pow_pos_nonneg 2 (-50 - Z.min e (-50)) ltac:(lia) ltac:(lia)).
      assert (0 < Zpos m * 2 ^ (e - Z.min e (-50))) by (apply Z.mul_pos_pos; lia).
      assert (0 < Zpos five_m * 2 ^ (-50 - Z.min e (-50)))
        by (apply Z.mul_pos_pos; lia).
      lia.
Qed.

(** [-(x - 5) >= 0] exactly when [x <= 5]. *)
Lemma SF_five_sub_nonneg (X : spec_float) :
  valid_binary X = true ->
  SFleb (S754_zero false) (SFopp (SF64sub X (S754_finite false five_m (-50))))
  = SFleb X (S754_finite false five_m (-50)).
Proof.
  intros Hv. destruct X as [s | s | | s m e].
  - destruct s; reflexivity.
  - destruct s; reflexivity.
  - reflexivity.
  - destruct (valid_finite s m e Hv) as (He & Hm & Hnorm).
    destruct five_m_bounds as [H5l H5u].
    unfold SF64sub, SFsub.
    rewrite leb_zero_opp_normalize by (try rewrite emin_64; unfold prec; lia).
    rewrite !shl_align_fst by lia.
    unfold SFleb, SFcompare.
    destruct s; simpl cond_Zopp.
    + apply Z.leb_le.
      pose proof (Z.pow_pos_nonneg 2 (e - Z.min e (-50)) ltac:(lia) ltac:(lia)).
      pose proof (Z.pow_pos_nonneg 2 (-50 - Z.min e (-50)) ltac:(lia) ltac:(lia)).
      assert (0 < Zpos m * 2 ^ (e - Z.min e (-50))) by (apply Z.mul_pos_pos; lia).
      assert (0 < Zpos five_m * 2 ^ (-50 - Z.min e (-50)))
        by (apply Z.mul_pos_pos; lia).
      lia.
    + destruct (Z.compare_spec e (-50)) as [-> | Hlt | Hgt].
      * rewrite Z.min_id, Z.sub_diag, Z.pow_0_r, !Z.mul_1_r.
        destruct (compare_cont_Eq_spec m five_m) as [Hp | Hp | Hp].
        -- apply Z.leb_le. lia.
        -- apply Z.leb_le. lia.
        -- apply Z.leb_gt. lia.
      * apply Z.leb_le. rewrite Z.min_l by lia.
        rewrite Z.sub_diag, Z.pow_0_r, Z.mul_1_r.
        pose proof (pow2_ge_2 (-50 - e) ltac:(lia)) as Hp.
        pose proof (small_below_scaled (Zpos m) (Zpos five_m) _
                      ltac:(lia) Hm H5l Hp).
        lia.
      * apply Z.leb_gt. rewrite Z.min_r by lia.
        rewrite Z.sub_diag, Z.pow_0_r, Z.mul_1_r.
        specialize (Hnorm ltac:(lia)).
        pose proof (pow2_ge_2 (e - -50) ltac:(lia)) as Hp.
        pose proof (large_above_scaled (Zpos m) (Zpos five_m) _
                      Hnorm ltac:(lia) H5u Hp).
        lia.
Qed.


(** *** The primitive operations *)

Lemma add_five_nonneg (x : float) : (0 <=? x + 5)%float = (-5 <=? x)%float.
Proof.
  rewrite !leb_spec, add_spec, Prim2SF_zero, Prim2SF_five, Prim2SF_minus_five.
  apply SF_add_five_nonneg, Prim2SF_valid.
Qed.

Lemma five_sub_nonneg (x : float) : (0 <=? - (x - 5))%float = (x <=? 5)%float.
Proof.
  rewrite !leb_spec, opp_spec, sub_spec, Prim2SF_zero, Prim2SF_five.
  apply SF_five_sub_nonneg, Prim2SF_valid.
Qed.

Lemma SFeqb_finite_refl (s : bool) (m : positive) (e : Z) :
  SFeqb (S754_finite s m e) (S754_finite s m e) = true.
Proof.
  unfold SFeqb, SFcompare. rewrite Z.compare_refl.
  destruct (compare_cont_Eq_spec m m) as [_ | Hlt | Hlt]; try lia.
  destruct s; reflexivity.
Qed.

(** The smaller of two numbers is at least zero exactly when both are;
    a NaN on either side is not. *)
Lemma SF_minimum_nonneg (A B : spec_float) :
  SFleb (S754_zero false) (if SFltb A B || negb (SFeqb A A) then A else B)
  = SFleb (S754_zero false) A && SFleb (S754_zero false) B.
Proof.
  destruct A as [sa | sa | | sa ma ea].
  - destruct sa, B as [[] | [] | | [] mb eb]; reflexivity.
  - destruct sa, B as [[] | [] | | [] mb eb]; reflexivity.
  - destruct B as [[] | [] | | [] mb eb]; reflexivity.
  - rewrite SFeqb_finite_refl. cbn [negb]. rewrite orb_false_r.
    destruct B as [sb | sb | | sb mb eb].
    + destruct sa, sb; reflexivity.
    + destruct sa, sb; reflexivity.
    + destruct sa; reflexivity.
    + unfold SFltb, SFcompare.
      destruct sa, sb; try reflexivity;
        destruct (ea ?= eb); try reflexivity;
        destruct (Pos.compare_cont Eq ma mb); reflexivity.
Qed.

Lemma minimum_nonneg (a b : float) :
  (0 <=? Np.minimum a b)%float = (0 <=? a)%float && (0 <=? b)%float.
Proof.
  rewrite (leb_spec 0 a), (leb_spec 0 b), Prim2SF_zero, <- SF_minimum_nonneg.
  unfold Np.minimum, is_nan. rewrite ltb_spec, FloatAxioms.eqb_spec.
  destruct (SFltb (Prim2SF a) (Prim2SF b)
            || negb (SFeqb (Prim2SF a) (Prim2SF a)));
    now rewrite leb_spec, Prim2SF_zero.
Qed.

Lemma fold_minimum_nonneg (l : list float) (a : float) :
  (0 <=? fold_left Np.minimum l a)%float
  = (0 <=? a)%float && forallb (fun y => (0 <=? y)%float) l.
Proof.
  revert a. induction l as [|b l IH]; intros a; simpl.
  - now rewrite andb_true_r.
  - rewrite IH, minimum_nonneg. now rewrite andb_assoc.
Qed.

End Binary64Facts.

(** ** The constraint expressions *)

Module ConstraintFacts.
Import Bbob MinimizeMethod Binary64Facts.

Lemma forallb_andb {A} (p q : A -> bool) (l : list A) :
  forallb p l && forallb q l = forallb (fun a => p a && q a) l.
Proof.
  induction l as [|a l IH]; simpl; [reflexivity |].
  rewrite <- IH. destruct (p a), (q a), (forallb p l); reflexivity.
Qed.

Lemma forallb_map_ext {A B} (f : A -> B) (p : B -> bool) (q : A -> bool)
    (l : list A) :
  (forall a, p (f a) = q a) -> forallb p (map f l) = forallb q l.
Proof.
  intros Hpq. induction l as [|a l IH]; simpl; [reflexivity |].
  now rewrite Hpq, IH.
Qed.

(** The first expression is not negative exactly on the points with every
    coordinate at least [-5]. *)
Lemma constraint_lo_satisfied (x : ndarray) :
  x <> [] ->
  satisfied (constraint_lo x) = forallb (fun xi => (-5 <=? xi)%float) x.
Proof.
  destruct x as [|a l]; [congruence | intros _].
  unfold constraint_lo, Np.min, Np.add, satisfied. cbn [map].
  rewrite fold_minimum_nonneg, add_five_nonneg. cbn [forallb]. f_equal.
  apply forallb_map_ext. intros y. apply add_five_nonneg.
Qed.

(** The second is not negative exactly on the points with every
    coordinate at most [5]. *)
Lemma constraint_hi_satisfied (x : ndarray) :
  x <> [] ->
  satisfied (constraint_hi x) = forallb (fun xi => (xi <=? 5)%float) x.
Proof.
  destruct x as [|a l]; [congruence | intros _].
  unfold constraint_hi, Np.min, Np.neg, Np.sub, satisfied. cbn [map].
  rewrite fold_minimum_nonneg, five_sub_nonneg, map_map. cbn [forallb].
  f_equal.
  apply forallb_map_ext. intros y. apply five_sub_nonneg.
Qed.

Section WithTypes.
Context {F : Type} `{LoggingFunction F} {Fun X0 Callback Result : Type}.

(** What the two stored expressions compute, as they are written: on a
    point with at least one coordinate, the first is not negative exactly
    when every coordinate is at least [-5], the second exactly when every
    coordinate is at most [+5]. *)
Theorem constraints_enforce_inner_box
    (so : @OuterLoop Fun X0 Callback Result) (name : string)
    (fi : FInstance F) (m : t) :
  __init__ so name fi = inr m ->
  constraint_funs (minimizer_kwargs m) = [constraint_lo; constraint_hi]
  /\ forall x : ndarray,
       x <> [] ->
       satisfied (constraint_lo x) = forallb (fun xi => (-5 <=? xi)%float) x
       /\ satisfied (constraint_hi x) = forallb (fun xi => (xi <=? 5)%float) x
       /\ satisfied (constraint_lo x) && satisfied (constraint_hi x)
          = in_box (-5) 5 x.
Proof.
  intros Hm.
  destruct (MethodFacts.init_inr so name fi m Hm)
    as (_ & _ & _ & _ & _ & Hc & _).
  split; [exact Hc |].
  intros x Hx.
  rewrite (constraint_lo_satisfied x Hx), (constraint_hi_satisfied x Hx).
  split; [reflexivity |]. split; [reflexivity |].
  apply forallb_andb.
Qed.

End WithTypes.

Import Scenario.

(** C2, the code at the failing input. The object built for the
    two-dimensional [fi2] holds the bounds [(-6, +6)] in both coordinates,
    the box the constructor's docstring names. The point [(5.5, 0)] lies
    in that box and the second constraint expression is [-0.5] there; the
    point [(-5.5, 0)] lies in it and the first is [-0.5] there: the
    expressions are written with [5] where the bounds have [6]. *)
Theorem constraints_negative_within_bounds :
  minimizer_kwargs bfgs !! "bounds"
  = Some (VBounds [((-6)%float, 6%float); ((-6)%float, 6%float)])
  /\ constraint_funs (minimizer_kwargs bfgs) = [constraint_lo; constraint_hi]
  /\ (in_box (-6) 6 [5.5; 0]%float = true
      /\ constraint_hi [5.5; 0]%float = inr (-0.5)%float
      /\ satisfied (constraint_hi [5.5; 0]%float) = false)
  /\ (in_box (-6) 6 [-5.5; 0]%float = true
      /\ constraint_lo [-5.5; 0]%float = inr (-0.5)%float
      /\ satisfied (constraint_lo [-5.5; 0]%float) = false).
Proof. repeat split; vm_compute; reflexivity. Qed.

(** Each expression bounds one side only: the first does not see a
    coordinate that is too large, the second none that is too small. *)
Example constraints_one_sided :
  (in_box (-6) 6 [7; 0]%float = false
   /\ constraint_lo [7; 0]%float = inr 5%float
   /\ satisfied (constraint_lo [7; 0]%float) = true)
  /\ (in_box (-6) 6 [-7; 0]%float = false
      /\ constraint_hi [-7; 0]%float = inr 5%float
      /\ satisfied (constraint_hi [-7; 0]%float) = true).
Proof. repeat split; vm_compute; reflexivity. Qed.

Lemma constraints_enforce_inner_box_witness :
  MinimizeMethod.__init__ echo_loop "BFGS" fi2 = inr bfgs
  /\ constraint_funs (minimizer_kwargs bfgs) = [constraint_lo; constraint_hi]
  /\ satisfied (constraint_lo [-5; 5]%float)
     && satisfied (constraint_hi [-5; 5]%float)
     = in_box (-5) 5 [-5; 5]%float.
Proof.
  split; [reflexivity |].
  destruct (constraints_enforce_inner_box echo_loop "BFGS" fi2 bfgs eq_refl)
    as [Hc Hx].
  split; [exact Hc |].
  exact (proj2 (proj2 (Hx [-5; 5]%float ltac:(discriminate)))).
Defined.

End ConstraintFacts.

(** ** Further properties of the two classes *)

Module FurtherFacts.
Import Bbob Fmt SteppingData StringFacts SteppingFacts Scenario.

#[local] Arguments String.append !s1 s2 : simpl nomatch.

Section Log.
Context {F : Type} `{LoggingFunction F}.

(** The log is the data file of the function object, once readied, with
    its extension replaced by [.mdat]. *)
Theorem log_path_mdat (fi : FInstance F) (fs0 : File.files) :
  let st0 := __init__ fi fs0 in
  File.path (datafile (fst st0))
  = fst (OsPath.splitext (Bbob.datafile (fobj (snd st0)))) ++ ".mdat"
  /\ File.path (datafile (fst (__init__ fi2 ∅)))
     = "ppdata/data_f1/bbobexp_f1_DIM2.mdat".
Proof. split; reflexivity. Qed.

(** [record] flushes: nothing stays in the buffer, and the file holds
    the whole text of the log. *)
Theorem record_flushes
    (i : Z) (name : string) (iters : Z) (fitness : float) (point : ndarray)
    (self : t) (w : World F) :
  let st' := record i name iters fitness point self w in
  File.buffer (datafile (fst st')) = ""
  /\ fs (snd st') !! File.path (datafile (fst st')) = Some (log_text st').
Proof.
  unfold record, log_text, File.contents, File.flush, File.write.
  destruct (step_line self (fobj w) i name iters fitness point) as [res lb].
  simpl. rewrite lookup_insert_eq. simpl.
  split; [reflexivity |]. now rewrite append_nil_r.
Qed.

Lemma step_appends (c : call) (st : t * World F) :
  exists s : string, log_text (step c st) = log_text st ++ s.
Proof.
  destruct st as [self w].
  destruct c as [| i name iters fitness point | g].
  - exists "". symmetry. apply append_nil_r.
  - eexists. apply record_log.
  - exists "". symmetry. apply append_nil_r.
Qed.

(** The file is only appended to: what it held before the constructor ran
    stays in front, then comes the header, then what the run wrote. *)
Theorem log_append_only (fi : FInstance F) (fs0 : File.files) (cs : list call) :
  let st0 := __init__ fi fs0 in
  exists s : string,
    log_text (run cs st0)
    = default "" (fs0 !! File.path (datafile (fst st0))) ++ header ++ s.
Proof.
  intros st0.
  assert (Hrun : forall cs st, exists s : string,
             log_text (run cs st) = log_text st ++ s).
  { clear. intros cs. induction cs as [|c cs IH]; intros st.
    - exists "". symmetry. apply append_nil_r.
    - rewrite run_cons. destruct (IH (step c st)) as [s2 Hs2].
      destruct (step_appends c st) as [s1 Hs1].
      exists (s1 ++ s2). now rewrite Hs2, Hs1, append_assoc. }
  destruct (Hrun cs st0) as [s Hs]. exists s.
  rewrite Hs. unfold st0 at 1. rewrite init_log. apply append_assoc.
Qed.

(** The counter never decreases along a run. *)
Theorem total_iters_monotone (cs : list call) (st : t * World F) :
  total_iters (fst st) <= total_iters (fst (run cs st)).
Proof. rewrite total_iters_run. lia. Qed.

End Log.

Import MinimizeMethod.

Section Method.
Context {F : Type} `{LoggingFunction F} {Fun X0 Callback Result : Type}.

(** The options of a constructed object hold the precision of the
    function under ["rhoend"], and nothing else. *)
Theorem options_rhoend_precision
    (so : @OuterLoop Fun X0 Callback Result) (name : string) (fi : FInstance F) :
  match __init__ so name fi with
  | inr m =>
      minimizer_kwargs m !! "options"
      = Some (VOptions (<["rhoend" := precision (f fi)]> ∅))
  | inl _ => True
  end.
Proof.
  destruct (__init__ so name fi) as [e | m] eqn:Hm; [exact I |].
  now destruct (MethodFacts.init_inr so name fi m Hm)
    as (_ & _ & _ & _ & _ & _ & Ho & _).
Qed.

End Method.

(** Scenario B: ["cobyla"] is refused at construction. *)
Example scenario_cobyla :
  exists self : MinimizeMethod.t,
    MinimizeMethod.__init__ echo_loop "cobyla" fi2
    = inl (RuntimeError
        "MinimizationMethod does not support method cobyla (does not provide callback functionality).",
           self).
Proof. eexists. reflexivity. Qed.

End FurtherFacts.

(** * Reading the log back *)

(** ** What a reader of the log computes *)

Module LogReader.
Import Bbob Fmt SteppingData Scenario.

(** [int(field)] on a field written with ['%d']. *)
Definition parse_int (s : string) : option Z :=
  option_map Z.of_int (NilZero.int_of_string s).



Section Runs.
Context {F : Type} `{LoggingFunction F}.



(** The function object after the evaluations of a run. *)
Definition evaluations (cs : list call) (fn : F) : F :=
  fold_left (fun fn c => match c with Evaluate g => g fn | _ => fn end) cs fn.

End Runs.

(** The instance [fi2] of the scenarios with its function object set to
    dimension 2 and ready. *)
Definition ready_fi2 : FInstance Scenario.fgeneric :=
  {| dim := 2; f := _readytostart (_setdim 2 Scenario.sphere) |}.

End LogReader.

(** ** Properties *)

Module LogReaderFacts.
Import Bbob Fmt SteppingData StringFacts SteppingFacts LogReader.

#[local] Arguments String.append !s1 s2 : simpl nomatch.

(** ['%d'] and [int] are inverse to each other. *)
Lemma parse_int_pct_d (z : Z) : parse_int (pct_d z) = Some z.
Proof.
  unfold parse_int, pct_d.
  rewrite NilZero.isi.
  - simpl. now rewrite DecimalZ.of_to.
  - destruct z; simpl; try discriminate.
    intros [= E]. now apply (DecimalPos.Unsigned.to_uint_nonnil p).
  - destruct z; simpl; try discriminate.
    intros [= E]. now apply (DecimalPos.Unsigned.to_uint_nonnil p).
Qed.

Section WithFunction.
Context {F : Type} `{LoggingFunction F}.

(** The leading fields of a step's text, for a name without a space. *)
Lemma step_line_fields (self : t) (fn : F) i name iters fitness point :
  count sp name = O ->
  exists rest : list string,
    split sp (fst (step_line self fn i name iters fitness point))
    = pct_d (num (lasteval fn)) :: pct_d (total_iters self) :: pct_d i
      :: name :: pct_d iters :: rest.
Proof.
  intros Hname.
  assert (Hres : forall tl : string, exists rest : list string,
    split sp (fmt_step (num (lasteval fn)) (total_iters self) i name
                       iters fitness ++ tl)
    = pct_d (num (lasteval fn)) :: pct_d (total_iters self) :: pct_d i
      :: name :: pct_d iters :: rest).
  { intros tl. unfold fmt_step, pct_s. rewrite !append_assoc, !append_sp.
    rewrite split_first by (apply count_pct_d; now right).
    rewrite split_first by (apply count_pct_d; now right).
    rewrite split_first by (apply count_pct_d; now right).
    rewrite split_first by exact Hname.
    rewrite split_first by (apply count_pct_d; now right).
    eexists. reflexivity. }
  unfold step_line. cbv zeta. destruct (changed _ _); simpl fst.
  - apply Hres.
  - rewrite <- (append_nil_r (fmt_step _ _ _ _ _ _)). apply Hres.
Qed.

(** X: the integer fields and the name of a line can be read back. *)
Theorem record_fields_read_back
    (i : Z) (name : string) (iters : Z) (fitness : float) (point : ndarray)
    (self : t) (w : World F) :
  count sp name = O ->
  exists (line : string) (f1 f2 f3 f5 : string) (rest : list string),
    log_text (record i name iters fitness point self w)
    = log_text (self, w) ++ line ++ String nl ""
    /\ split sp line = f1 :: f2 :: f3 :: name :: f5 :: rest
    /\ parse_int f1 = Some (num (lasteval (fobj w)))
    /\ parse_int f2 = Some (total_iters self)
    /\ parse_int f3 = Some i
    /\ parse_int f5 = Some iters.
Proof.
  intros Hname.
  destruct (step_line_fields self (fobj w) i name iters fitness point Hname)
    as [rest Hsplit].
  eexists _, _, _, _, _, rest.
  split; [apply record_log |].
  split; [exact Hsplit |].
  repeat split; apply parse_int_pct_d.
Qed.

(** *** Two calls in a row *)

(** After a [record] call, the test on the same offset holds only for a
    NaN. *)
Lemma changed_after_step_line (self : t) (fn : F) i name iters fitness point :
  changed (snd (step_line self fn i name iters fitness point)) (offset fn)
  = is_nan (offset fn).
Proof.
  unfold step_line. cbv zeta. fold (offset fn).
  destruct (changed (last_best self) (offset fn)) eqn:Hch; simpl snd.
  - reflexivity.
  - unfold changed in Hch |- *.
    destruct (last_best self) as [v |]; [| discriminate].
    apply negb_false_iff in Hch. unfold is_nan.
    now rewrite <- (FloatFacts.eqb_congr (offset fn) (offset fn) v), Hch.
Qed.

Lemma run_end_iters (n : nat) (st : t * World F) :
  last_best (fst (run (repeat EndIter n) st)) = last_best (fst st)
  /\ fobj (snd (run (repeat EndIter n) st)) = fobj (snd st)
  /\ total_iters (fst (run (repeat EndIter n) st))
     = total_iters (fst st) + Z.of_nat n.
Proof.
  revert st. induction n as [|n IH]; intros [self w].
  - simpl. repeat split. lia.
  - simpl repeat. rewrite run_cons.
    destruct (IH (step EndIter (self, w))) as (Hl & Hf & Ht).
    rewrite Hl, Hf, Ht. simpl. repeat split. lia.
Qed.

(** X: with no evaluation since the last [record] call, only [end_iter]
    calls, a [record] call writes the best offset again exactly when the
    offset is a NaN. *)
Theorem record_again_omits_unless_nan
    (i i' : Z) (name name' : string) (iters iters' : Z)
    (fitness fitness' : float) (point point' : ndarray)
    (n : nat) (self : t) (w : World F) :
  let best := offset (fobj w) in
  let st1 := record i name iters fitness point self w in
  let st2 := run (repeat EndIter n) st1 in
  let res := fmt_step (num (lasteval (fobj w))) (total_iters self + Z.of_nat n)
                      i' name' iters' fitness' in
  log_text (record i' name' iters' fitness' point' (fst st2) (snd st2))
  = log_text st2
    ++ (res ++ (if is_nan best then " " ++ pct_e best else ""))
    ++ String nl "".
Proof.
  intros best st1 st2 res.
  destruct (run_end_iters n st1) as (Hl & Hf & Ht). fold st2 in Hl, Hf, Ht.
  destruct st2 as [self2 w2]. simpl fst in *. simpl snd in *.
  rewrite record_log. do 2 f_equal.
  unfold st1 in Hl, Hf, Ht.
  rewrite record_last_best in Hl. rewrite record_fobj in Hf.
  rewrite record_total_iters in Ht.
  unfold step_line at 1. cbv zeta.
  rewrite Hf, Ht, Hl. fold (offset (fobj w)).
  rewrite changed_after_step_line. fold best. fold res.
  destruct (is_nan best); simpl fst; [reflexivity |].
  symmetry. apply append_nil_r.
Qed.

(** *** The best-offset column, decoded *)




(** *** What a log never touches *)

Lemma step_path (c : call) (st : t * World F) :
  File.path (datafile (fst (step c st))) = File.path (datafile (fst st)).
Proof.
  destruct st as [self w]. destruct c; simpl step; try reflexivity.
  apply record_path.
Qed.

Lemma run_path (cs : list call) (st : t * World F) :
  File.path (datafile (fst (run cs st))) = File.path (datafile (fst st)).
Proof.
  revert st. induction cs as [|c cs IH]; intros st; [reflexivity |].
  now rewrite run_cons, IH, step_path.
Qed.

Lemma run_other_files (cs : list call) (st : t * World F) (p : string) :
  p <> File.path (datafile (fst st)) ->
  fs (snd (run cs st)) !! p = fs (snd st) !! p.
Proof.
  revert st. induction cs as [|c cs IH]; intros [self w] Hp; [reflexivity |].
  rewrite run_cons, IH by now rewrite step_path.
  destruct c; simpl step; try reflexivity.
  now apply record_other_files.
Qed.

(** X: a log touches one file. The path of its handle is fixed at
    construction, and every other file is, after the constructor and any
    run, as it was before. *)
Theorem log_touches_one_file
    (fi : FInstance F) (fs0 : File.files) (cs : list call) (p : string) :
  let st0 := __init__ fi fs0 in
  File.path (datafile (fst (run cs st0))) = File.path (datafile (fst st0))
  /\ (p <> File.path (datafile (fst st0)) ->
      fs (snd (run cs st0)) !! p = fs0 !! p).
Proof.
  intros st0. split; [apply run_path |].
  intros Hp. rewrite run_other_files by exact Hp.
  unfold st0, __init__, File.open_append in *. simpl in *.
  now rewrite lookup_insert_ne by congruence.
Qed.

(** X: after construction, the methods of the log never change the
    function object: at the end of a run it is what the evaluations of
    the run made of it. *)
Theorem log_leaves_function_object (cs : list call) (st : t * World F) :
  fobj (snd (run cs st)) = evaluations cs (fobj (snd st)).
Proof.
  revert st. induction cs as [|c cs IH]; intros [self w]; [reflexivity |].
  rewrite run_cons, IH. unfold evaluations. simpl fold_left.
  destruct c; simpl step; try reflexivity.
  now rewrite record_fobj.
Qed.

(** X: the constructor leaves a function object alone that is set to the
    dimension of the instance and ready. *)
Theorem init_keeps_ready_function (fi : FInstance F) (fs0 : File.files) :
  _is_setdim (f fi) = true ->
  _dim (f fi) = dim fi ->
  _is_ready (f fi) = true ->
  fobj (snd (__init__ fi fs0)) = f fi.
Proof.
  intros Hset Hdim Hready. unfold __init__.
  rewrite Hset, Hdim, Z.eqb_refl. cbn [negb orb].
  rewrite Hready. reflexivity.
Qed.

End WithFunction.

Import Scenario.

Lemma record_fields_read_back_witness :
  count sp "L-BFGS-B" = O
  /\ exists (line : string) (f1 f2 f3 f5 : string) (rest : list string),
       log_text (record 3 "L-BFGS-B" 12 1%float []
                   (fst (__init__ fi2 ∅)) (snd (__init__ fi2 ∅)))
       = log_text (__init__ fi2 ∅) ++ line ++ String nl ""
       /\ split sp line = f1 :: f2 :: f3 :: "L-BFGS-B" :: f5 :: rest
       /\ parse_int f1 = Some 0
       /\ parse_int f2 = Some 0
       /\ parse_int f3 = Some 3
       /\ parse_int f5 = Some 12.
Proof.
  split; [reflexivity |].
  exact (record_fields_read_back 3 "L-BFGS-B" 12 1%float []
           (fst (__init__ fi2 ∅)) (snd (__init__ fi2 ∅)) eq_refl).
Defined.

Lemma init_keeps_ready_function_witness :
  _is_setdim (f ready_fi2) = true
  /\ _dim (f ready_fi2) = dim ready_fi2
  /\ _is_ready (f ready_fi2) = true
  /\ fobj (snd (__init__ ready_fi2 ∅)) = f ready_fi2.
Proof.
  split; [reflexivity |]. split; [reflexivity |]. split; [reflexivity |].
  exact (init_keeps_ready_function ready_fi2 ∅ eq_refl eq_refl eq_refl).
Defined.

End LogReaderFacts.

(** * The path of the log *)

Module PathShape.
Import Fmt.

(** A text made of dots only. *)
Fixpoint only_dots (s : string) : bool :=
  match s with
  | EmptyString => true
  | String c s' => Ascii.eqb c "."%char && only_dots s'
  end.

Definition starts_with_dot (s : string) : bool :=
  match s with
  | EmptyString => false
  | String c _ => Ascii.eqb c "."%char
  end.

(** [p] read as a directory part, empty or ending in the separator, the
    leading dots of the file name, and the rest of the file name. *)
Definition parts (dir dots rest p : string) : Prop :=
  p = dir ++ dots ++ rest
  /\ (dir = "" \/ exists d : string, dir = d ++ "/")
  /\ count "/"%char (dots ++ rest) = O
  /\ only_dots dots = true
  /\ starts_with_dot rest = false.

End PathShape.

Module PathFacts.
Import Bbob Fmt SteppingData StringFacts OsPath PathShape.

#[local] Arguments String.append !s1 s2 : simpl nomatch.

Lemma substring_all (p : string) : String.substring 0 (String.length p) p = p.
Proof. induction p as [|c p IH]; simpl; [reflexivity | now rewrite IH]. Qed.

(** A text is its first [n] characters followed by the rest. *)
Lemma substring_join (p : string) (n : nat) :
  String.substring 0 n p ++ String.substring n (String.length p - n) p = p.
Proof.
  revert n. induction p as [|c p IH]; intros n.
  - destruct n; reflexivity.
  - destruct n as [|n]; simpl.
    + f_equal. apply substring_all.
    + f_equal. apply IH.
Qed.

(** [rfind] answers [-1] or the index of an occurrence. *)
Lemma rfind_from_get (c : ascii) (p : string) (i acc : Z) :
  rfind_from c p i acc = acc
  \/ (i <= rfind_from c p i acc
      /\ String.get (Z.to_nat (rfind_from c p i acc - i)) p = Some c).
Proof.
  revert i acc. induction p as [|a p IH]; intros i acc; simpl.
  - now left.
  - destruct (IH (i + 1) (if Ascii.eqb a c then i else acc)) as [E | [Hle Hget]].
    + rewrite E. destruct (Ascii.eqb_spec a c) as [-> | Hne].
      * right. split; [lia |]. now rewrite Z.sub_diag.
      * now left.
    + right. split; [lia |].
      replace (Z.to_nat (rfind_from c p (i + 1)
                 (if Ascii.eqb a c then i else acc) - i))
        with (S (Z.to_nat (rfind_from c p (i + 1)
                 (if Ascii.eqb a c then i else acc) - (i + 1)))) by lia.
      exact Hget.
Qed.

Lemma substring_from_get (p : string) (n : nat) (c : ascii) :
  String.get n p = Some c ->
  exists e : string, String.substring n (String.length p - n) p = String c e.
Proof.
  revert n. induction p as [|a p IH]; intros n Hget.
  - destruct n; discriminate.
  - destruct n as [|n]; simpl in *.
    + injection Hget as ->. eexists. reflexivity.
    + now apply IH.
Qed.

(** [splitext] cuts the path in two; the extension is empty or starts
    with the dot. *)
Lemma splitext_join (p : string) :
  fst (splitext p) ++ snd (splitext p) = p
  /\ (snd (splitext p) = ""
      \/ exists e : string, snd (splitext p) = String "."%char e).
Proof.
  unfold splitext.
  destruct ((rfind "/"%char p <? rfind "."%char p)
            && has_name _ _ p) eqn:Hcut; cbn [fst snd].
  - split; [apply substring_join |]. right.
    apply andb_true_iff in Hcut as [Hlt _]. apply Z.ltb_lt in Hlt.
    unfold rfind in *.
    destruct (rfind_from_get "."%char p 0 (-1)) as [E | [_ Hget]].
    + destruct (rfind_from_get "/"%char p 0 (-1)) as [E' | [Hle _]]; lia.
    + rewrite Z.sub_0_r in Hget. now apply substring_from_get.
  - split; [apply append_nil_r | now left].
Qed.

Lemma string_length_app (a b : string) :
  String.length (a ++ b) = (String.length a + String.length b)%nat.
Proof. induction a as [|c a IH]; simpl; [reflexivity | now rewrite IH]. Qed.

Lemma append_self_nil (a b : string) : a ++ b = a -> b = "".
Proof.
  intros E. apply (append_inv_head a). now rewrite append_nil_r.
Qed.

(** *** [rfind] on a text in two pieces *)

Lemma rfind_from_app (c : ascii) (a b : string) (i acc : Z) :
  rfind_from c (a ++ b) i acc
  = rfind_from c b (i + Z.of_nat (String.length a)) (rfind_from c a i acc).
Proof.
  revert i acc. induction a as [|x a IH]; intros i acc; simpl.
  - now rewrite Z.add_0_r.
  - rewrite IH. f_equal. lia.
Qed.

Lemma rfind_from_absent (c : ascii) (p : string) (i acc : Z) :
  count c p = O -> rfind_from c p i acc = acc.
Proof.
  revert i acc. induction p as [|a p IH]; intros i acc; simpl; [reflexivity |].
  destruct (Ascii.eqb a c); [discriminate |]. simpl. apply IH.
Qed.

Lemma rfind_from_range (c : ascii) (p : string) (i acc : Z) :
  rfind_from c p i acc = acc
  \/ i <= rfind_from c p i acc < i + Z.of_nat (String.length p).
Proof.
  revert i acc. induction p as [|a p IH]; intros i acc; simpl String.length;
    cbn [rfind_from]; [now left |].
  destruct (IH (i + 1) (if Ascii.eqb a c then i else acc)) as [E | Hr].
  - rewrite E. destruct (Ascii.eqb a c); [right; lia | now left].
  - right. lia.
Qed.

Lemma rfind_from_dots (dots : string) (i acc : Z) :
  only_dots dots = true -> dots <> "" ->
  rfind_from "."%char dots i acc = i + Z.of_nat (String.length dots) - 1.
Proof.
  revert i acc. induction dots as [|a d IH]; intros i acc Hd Hne; [congruence |].
  simpl in Hd. apply andb_true_iff in Hd as [Ha Hd].
  cbn [rfind_from]. rewrite Ha.
  destruct d as [|b d'].
  - simpl. lia.
  - rewrite IH by (assumption || discriminate).
    simpl String.length. lia.
Qed.

(** The separator index of a path whose directory part is [dir]. *)
Lemma sep_index (dir base : string) :
  (dir = "" \/ exists d : string, dir = d ++ "/") ->
  count "/"%char base = O ->
  rfind "/"%char (dir ++ base) + 1 = Z.of_nat (String.length dir).
Proof.
  intros Hdir Hbase. unfold rfind.
  rewrite rfind_from_app, (rfind_from_absent _ base) by exact Hbase.
  destruct Hdir as [-> | [d ->]]; [reflexivity |].
  rewrite rfind_from_app. cbn [rfind_from]. simpl Ascii.eqb. cbv iota.
  rewrite string_length_app. simpl String.length. lia.
Qed.

(** *** The loop over the leading dots *)

Lemma get_skip (a s : string) (k : nat) :
  String.get (String.length a + k) (a ++ s) = String.get k s.
Proof. induction a as [|x a IH]; simpl; [reflexivity | exact IH]. Qed.

Lemma has_name_skip (a s : string) (n k : nat) :
  has_name n (String.length a + k) (a ++ s) = has_name n k s.
Proof.
  revert k. induction n as [|n IH]; intros k; cbn [has_name]; [reflexivity |].
  rewrite get_skip. rewrite plus_n_Sm, IH. reflexivity.
Qed.

Lemma has_name_skip0 (a s : string) (n : nat) :
  has_name n (String.length a) (a ++ s) = has_name n 0 s.
Proof. rewrite <- (has_name_skip a s n 0). now rewrite Nat.add_0_r. Qed.

Lemma has_name_dots (dots rest : string) (n : nat) :
  only_dots dots = true -> (n <= String.length dots)%nat ->
  has_name n 0 (dots ++ rest) = false.
Proof.
  revert n. induction dots as [|a d IH]; intros n Hd Hn.
  - simpl in Hn. now replace n with O by lia.
  - simpl in Hd. apply andb_true_iff in Hd as [Ha Hd].
    destruct n as [|n]; [reflexivity |].
    simpl in Hn. change (String a d ++ rest) with (String a (d ++ rest)).
    cbn [has_name String.get]. rewrite Ha.
    change (String a (d ++ rest)) with (String a "" ++ (d ++ rest)).
    change 1%nat with (String.length (String a "") + 0)%nat.
    rewrite has_name_skip. apply IH; [exact Hd | lia].
Qed.

Lemma has_name_found (dots t : string) (a : ascii) (k : nat) :
  only_dots dots = true -> Ascii.eqb a "."%char = false ->
  has_name (String.length dots + S k) 0 (dots ++ String a t) = true.
Proof.
  intros Hd Ha. induction dots as [|b d IH].
  - simpl. now rewrite Ha.
  - simpl in Hd. apply andb_true_iff in Hd as [Hb Hd].
    change (String b d ++ String a t) with (String b (d ++ String a t)).
    simpl String.length. cbn [Nat.add has_name String.get]. rewrite Hb.
    change (String b (d ++ String a t)) with (String b "" ++ (d ++ String a t)).
    change 1%nat with (String.length (String b "") + 0)%nat.
    rewrite has_name_skip. now apply IH.
Qed.

Lemma substring_prefix (a b : string) :
  String.substring 0 (String.length a) (a ++ b) = a.
Proof.
  induction a as [|x a IH]; simpl.
  - destruct b; reflexivity.
  - now rewrite IH.
Qed.

(** *** What [splitext] returns, by the parts of the path *)

Lemma splitext_no_dot (dir dots rest p : string) :
  parts dir dots rest p -> count "."%char rest = O ->
  splitext p = (p, "").
Proof.
  intros (-> & Hdir & Hbase & Hdots & _) Hrest.
  pose proof (sep_index dir (dots ++ rest) Hdir Hbase) as Hsep.
  unfold splitext.
  set (sepIndex := rfind "/"%char (dir ++ dots ++ rest)) in *.
  assert (Hdot : rfind "."%char (dir ++ dots ++ rest)
                 = rfind_from "."%char dots (Z.of_nat (String.length dir))
                     (rfind "."%char dir)).
  { unfold rfind. rewrite !rfind_from_app.
    now rewrite (rfind_from_absent _ rest) by exact Hrest. }
  rewrite Hdot.
  destruct dots as [|a d].
  - cbn [rfind_from].
    assert (Hle : rfind "."%char dir <= sepIndex).
    { unfold rfind. destruct (rfind_from_range "."%char dir 0 (-1)) as [E | Hr].
      - rewrite E. destruct Hdir as [-> | [d ->]]; simpl in Hsep; lia.
      - lia. }
    apply Z.ltb_ge in Hle. now rewrite Hle.
  - rewrite rfind_from_dots by (assumption || discriminate).
    replace (Z.to_nat (Z.of_nat (String.length dir)
                       + Z.of_nat (String.length (String a d)) - 1
                       - (sepIndex + 1)))
      with (String.length d) by (simpl String.length; lia).
    replace (Z.to_nat (sepIndex + 1)) with (String.length dir) by lia.
    rewrite has_name_skip0.
    rewrite has_name_dots by (assumption || (simpl; lia)).
    now rewrite andb_false_r.
Qed.

Lemma splitext_last_dot (dir dots rest p stem e : string) :
  parts dir dots rest p ->
  rest = stem ++ String "."%char e -> count "."%char e = O ->
  fst (splitext p) = dir ++ dots ++ stem.
Proof.
  intros (-> & Hdir & Hbase & Hdots & Hrest) -> He.
  pose proof (sep_index dir _ Hdir Hbase) as Hsep.
  destruct stem as [|a t]; [simpl in Hrest; discriminate |].
  simpl in Hrest.
  unfold splitext.
  set (p := dir ++ dots ++ String a t ++ String "."%char e) in *.
  assert (Hp : p = (dir ++ dots ++ String a t) ++ String "."%char e)
    by (unfold p; now rewrite !append_assoc).
  assert (Hdot : rfind "."%char p
                 = Z.of_nat (String.length (dir ++ dots ++ String a t))).
  { rewrite Hp. unfold rfind. rewrite rfind_from_app. cbn [rfind_from].
    simpl Ascii.eqb. cbv iota.
    now rewrite rfind_from_absent by exact He. }
  rewrite Hdot.
  assert (Hlt : (rfind "/"%char p <? Z.of_nat (String.length (dir ++ dots ++ String a t))) = true).
  { apply Z.ltb_lt. rewrite string_length_app. lia. }
  rewrite Hlt.
  replace (Z.to_nat (Z.of_nat (String.length (dir ++ dots ++ String a t))
                     - (rfind "/"%char p + 1)))
    with (String.length dots + S (String.length t))%nat
    by (rewrite !string_length_app; simpl String.length; lia).
  replace (Z.to_nat (rfind "/"%char p + 1)) with (String.length dir) by lia.
  assert (Hhas : has_name (String.length dots + S (String.length t))
                   (String.length dir) p = true).
  { unfold p. rewrite has_name_skip0.
    change (String a t ++ String "."%char e)
      with (String a (t ++ String "."%char e)).
    now apply has_name_found. }
  rewrite Hhas. cbn [andb fst].
  rewrite Nat2Z.id, Hp. apply substring_prefix.
Qed.

(** *** Every path has parts *)

(** A text that holds [c] splits at its last [c]. *)
Lemma split_last (c : ascii) (s : string) :
  count c s <> O ->
  exists a e : string, s = a ++ String c e /\ count c e = O.
Proof.
  induction s as [|x s IH]; intros Hc; [now contradiction Hc |].
  destruct (Nat.eq_dec (count c s) O) as [Hs | Hs].
  - simpl in Hc. destruct (Ascii.eqb_spec x c) as [-> | _].
    + exists "", s. now split.
    + now rewrite Hs in Hc.
  - destruct (IH Hs) as (a & e & -> & He).
    exists (String x a), e. now split.
Qed.

Lemma dir_base (p : string) :
  exists dir base : string,
    p = dir ++ base
    /\ (dir = "" \/ exists d : string, dir = d ++ "/")
    /\ count "/"%char base = O.
Proof.
  induction p as [|x p (dir & base & -> & Hdir & Hbase)].
  - exists "", "". repeat split. now left.
  - destruct Hdir as [-> | [d ->]].
    + destruct (Ascii.eqb_spec x "/"%char) as [-> | Hx].
      * exists "/", base. repeat split; [| exact Hbase].
        right. now exists "".
      * exists "", (String x base). repeat split; [now left |].
        simpl. apply Ascii.eqb_neq in Hx. now rewrite Hx.
    + exists (String x d ++ "/"), base. repeat split; [| exact Hbase].
      right. now exists (String x d).
Qed.

Lemma dots_rest (base : string) :
  exists dots rest : string,
    base = dots ++ rest /\ only_dots dots = true /\ starts_with_dot rest = false.
Proof.
  induction base as [|x b (dots & rest & -> & Hd & Hr)].
  - exists "", "". now repeat split.
  - destruct (Ascii.eqb x "."%char) eqn:Hx.
    + exists (String x dots), rest. repeat split; [| exact Hr].
      simpl. now rewrite Hx.
    + exists "", (String x (dots ++ rest)). now repeat split.
Qed.

Lemma parts_exist (p : string) :
  exists dir dots rest : string, parts dir dots rest p.
Proof.
  destruct (dir_base p) as (dir & base & -> & Hdir & Hbase).
  destruct (dots_rest base) as (dots & rest & -> & Hd & Hr).
  exists dir, dots, rest. now repeat split.
Qed.

Section WithFunction.
Context {F : Type} `{LoggingFunction F}.

(** X: the path of the log follows from the data-file path of the readied
    function object as [os.path.splitext] prescribes. Every path reads as
    a directory part (empty, or ending in ['/']), the leading dots of the
    file name and the rest of the file name. When the rest holds no dot,
    the log is the whole path with [.mdat] added; otherwise it is the path
    with everything from the last dot on replaced by [.mdat]. The log is
    the data file itself exactly when the rest of the file name ends in
    [.mdat]. *)
Theorem log_path_and_data_path (fi : FInstance F) (fs0 : File.files) :
  let st0 := __init__ fi fs0 in
  let data := Bbob.datafile (fobj (snd st0)) in
  let log := File.path (datafile (fst st0)) in
  (exists dir dots rest : string, parts dir dots rest data)
  /\ forall dir dots rest : string,
       parts dir dots rest data ->
       (count "."%char rest = O -> log = data ++ ".mdat")
       /\ (forall stem e : string,
             rest = stem ++ String "."%char e -> count "."%char e = O ->
             log = dir ++ dots ++ stem ++ ".mdat")
       /\ (log = data <-> exists stem : string, rest = stem ++ ".mdat").
Proof.
  intros st0 data log.
  split; [apply parts_exist |].
  intros dir dots rest Hparts.
  assert (Hlog : log = fst (splitext data) ++ ".mdat") by reflexivity.
  assert (Hno : count "."%char rest = O -> log = data ++ ".mdat").
  { intros Hrest. now rewrite Hlog, (splitext_no_dot dir dots rest). }
  assert (Hdot : forall stem e : string,
             rest = stem ++ String "."%char e -> count "."%char e = O ->
             log = dir ++ dots ++ stem ++ ".mdat").
  { intros stem e Hrest He.
    rewrite Hlog, (splitext_last_dot dir dots rest data stem e) by assumption.
    now rewrite !append_assoc. }
  split; [exact Hno |]. split; [exact Hdot |].
  destruct Hparts as (Hdata & _).
  split.
  - intros Hsame.
    destruct (Nat.eq_dec (count "."%char rest) O) as [Hrest | Hrest].
    + rewrite (Hno Hrest) in Hsame. now apply append_self_nil in Hsame.
    + destruct (split_last _ _ Hrest) as (stem & e & -> & He).
      exists stem.
      rewrite (Hdot stem e eq_refl He), Hdata in Hsame.
      do 3 apply append_inv_head in Hsame. now rewrite <- Hsame.
  - intros [stem ->].
    rewrite (Hdot stem "mdat" eq_refl eq_refl). now rewrite Hdata.
Qed.

End WithFunction.

Import Scenario.

Lemma log_path_and_data_path_witness :
  parts "ppdata/data_f1/" "" "bbobexp_f1_DIM2.dat"
    (Bbob.datafile (fobj (snd (__init__ fi2 ∅))))
  /\ File.path (datafile (fst (__init__ fi2 ∅)))
     = "ppdata/data_f1/" ++ "" ++ "bbobexp_f1_DIM2" ++ ".mdat".
Proof.
  assert (Hp : parts "ppdata/data_f1/" "" "bbobexp_f1_DIM2.dat"
                 (Bbob.datafile (fobj (snd (__init__ fi2 ∅))))).
  { split; [reflexivity |]. split; [right; now exists "ppdata/data_f1" |].
    now repeat split. }
  split; [exact Hp |].
  exact (proj1 (proj2 (proj2 (log_path_and_data_path fi2 ∅) _ _ _ Hp))
           "bbobexp_f1_DIM2" "dat" eq_refl eq_refl).
Defined.

End PathFacts.

(** * More on the method wrapper *)

Module MethodShape.
Import Bbob MinimizeMethod.

(** An ASCII letter, of either case. *)
Definition is_ascii_letter (c : ascii) : bool :=
  let n := nat_of_ascii c in
  ((65 <=? n)%nat && (n <=? 90)%nat) || ((97 <=? n)%nat && (n <=? 122)%nat).

(** A point within the bounds, pair by pair. *)
Definition within (bs : list (float * float)) (x : ndarray) : Prop :=
  Forall2 (fun b xi => (fst b <=? xi)%float = true /\ (xi <=? snd b)%float = true)
          bs x.

(** A point with a NaN for its second coordinate. *)
Definition nan_point : ndarray := [0%float; nan].

End MethodShape.

Module MethodShapeFacts.
Import Bbob Fmt MinimizeMethod MethodShape Binary64Facts ConstraintFacts.

(** *** Which names are refused *)

Lemma length_lower (s : string) : String.length (lower s) = String.length s.
Proof. induction s as [|c s IH]; simpl; [reflexivity | now rewrite IH]. Qed.

(** Only a letter has a lower-case letter for its lower-case form. *)
Lemma lower_char_letter (c : ascii) :
  is_ascii_letter (lower_char c) = true -> is_ascii_letter c = true.
Proof.
  destruct c as [[] [] [] [] [] [] [] []]; vm_compute; intros E;
    first [reflexivity | exact E].
Qed.

Lemma lower_letters (s : string) :
  forallb is_ascii_letter (list_ascii_of_string (lower s)) = true ->
  forallb is_ascii_letter (list_ascii_of_string s) = true.
Proof.
  induction s as [|c s IH]; simpl; [reflexivity |].
  intros E. apply andb_true_iff in E as [Ec Es].
  now rewrite (lower_char_letter c Ec), (IH Es).
Qed.

Section WithTypes.
Context {F : Type} `{LoggingFunction F} {Fun X0 Callback Result : Type}.
Implicit Types (so : @OuterLoop Fun X0 Callback Result)
               (fi : FInstance F) (name : string).

(** X: the constructor fails for the upper- and lower-case spellings of
    the two refused names and for nothing else: a refused name has six
    characters, all ASCII letters, and the only error is the
    unsupported-method [RuntimeError]; every other text, the empty one
    included, is accepted as a method name. *)
Theorem constructor_refuses_only_spellings so name fi :
  ((exists (e : exn) (self : t), __init__ so name fi = inl (e, self))
   <-> lower name = "anneal" \/ lower name = "cobyla")
  /\ (forall (e : exn) (self : t),
        __init__ so name fi = inl (e, self) ->
        e = RuntimeError (unsupported_msg name)
        /\ String.length name = 6%nat
        /\ forallb is_ascii_letter (list_ascii_of_string name) = true)
  /\ (String.length name <> 6%nat ->
      exists m : t,
        __init__ so name fi = inr m
        /\ minimizer_kwargs m !! "method" = Some (VStr name)).
Proof.
  assert (Hshape : lower name = "anneal" \/ lower name = "cobyla" ->
            String.length name = 6%nat
            /\ forallb is_ascii_letter (list_ascii_of_string name) = true).
  { intros Hname. split.
    - rewrite <- length_lower. destruct Hname as [-> | ->]; reflexivity.
    - apply lower_letters. destruct Hname as [-> | ->]; reflexivity. }
  split; [| split].
  - split.
    + intros (e & self & He). now apply MethodFacts.init_inl in He.
    + intros Hname. do 2 eexists. unfold __init__.
      rewrite (MethodFacts.setup_refused name _ Hname). reflexivity.
  - intros e self He. apply MethodFacts.init_inl in He as (Hname & -> & _).
    split; [reflexivity | now apply Hshape].
  - intros Hlen.
    destruct (__init__ so name fi) as [[e self] | m] eqn:Hinit.
    + apply MethodFacts.init_inl in Hinit as [Hname _].
      now apply Hshape in Hname as [Hl _].
    + exists m. split; [reflexivity |].
      now destruct (MethodFacts.init_inr so name fi m Hinit)
        as (_ & _ & _ & Hm & _).
Qed.

(** *** Setting the method up again *)

(** X: [_setup_method] touches the ["method"] entry only, and a later
    call overrides an earlier one: setting up a name on an object that
    was set up before gives what setting it up directly gives. *)
Theorem setup_method_overrides (n1 n2 : string)
    (self m1 : @t F Fun X0 Callback Result) :
  _setup_method n1 self = inr m1 ->
  MinimizeMethod.name m1 = MinimizeMethod.name self
  /\ MinimizeMethod.fi m1 = MinimizeMethod.fi self
  /\ outer_loop m1 = outer_loop self
  /\ minimizer_kwargs m1 !! "method" = Some (VStr n1)
  /\ (forall k : string,
        k <> "method" -> minimizer_kwargs m1 !! k = minimizer_kwargs self !! k)
  /\ _setup_method n2 m1 = _setup_method n2 self.
Proof.
  unfold _setup_method.
  destruct (existsb _ unsupported); [discriminate |].
  intros [= <-]. cbn [MinimizeMethod.name MinimizeMethod.fi outer_loop
                      minimizer_kwargs].
  split; [reflexivity |]. split; [reflexivity |]. split; [reflexivity |].
  split; [apply lookup_insert_eq |].
  split; [intros k Hk; now rewrite lookup_insert_ne |].
  destruct (existsb _ unsupported); [reflexivity |].
  now rewrite insert_insert_eq.
Qed.

End WithTypes.

(** *** The constraints and the bounds *)

Definition six_m : positive := 6755399441055744.

Lemma Prim2SF_six : Prim2SF 6 = S754_finite false six_m (-50).
Proof. reflexivity. Qed.

Lemma Prim2SF_minus_six : Prim2SF (-6) = S754_finite true six_m (-50).
Proof. reflexivity. Qed.

Lemma five_lt_six : (Zpos five_m < Zpos six_m)%Z.
Proof. reflexivity. Qed.

Lemma SF_ge_minus_six (Y : spec_float) :
  SFleb (S754_finite true five_m (-50)) Y = true ->
  SFleb (S754_finite true six_m (-50)) Y = true.
Proof.
  pose proof five_lt_six as H56.
  destruct Y as [s | s | | s m e]; try (intros E; exact E).
  unfold SFleb, SFcompare. destruct s; [| reflexivity].
  destruct (-50 ?= e)%Z; try (intros E; exact E).
  destruct (compare_cont_Eq_spec five_m m) as [E5 | E5 | E5];
    destruct (compare_cont_Eq_spec six_m m) as [E6 | E6 | E6];
    cbn [CompOpp]; intros E; first [reflexivity | discriminate | lia].
Qed.

Lemma SF_le_six (Y : spec_float) :
  SFleb Y (S754_finite false five_m (-50)) = true ->
  SFleb Y (S754_finite false six_m (-50)) = true.
Proof.
  pose proof five_lt_six as H56.
  destruct Y as [s | s | | s m e]; try (intros E; exact E).
  unfold SFleb, SFcompare. destruct s; [reflexivity |].
  destruct (e ?= -50)%Z; try (intros E; exact E).
  destruct (compare_cont_Eq_spec m five_m) as [E5 | E5 | E5];
    destruct (compare_cont_Eq_spec m six_m) as [E6 | E6 | E6];
    intros E; first [reflexivity | discriminate | lia].
Qed.

Lemma ge_minus_six (y : float) :
  (-5 <=? y)%float = true -> (-6 <=? y)%float = true.
Proof.
  rewrite !leb_spec, Prim2SF_minus_five, Prim2SF_minus_six.
  apply SF_ge_minus_six.
Qed.

Lemma le_six (y : float) : (y <=? 5)%float = true -> (y <=? 6)%float = true.
Proof.
  rewrite !leb_spec, Prim2SF_five, Prim2SF_six. apply SF_le_six.
Qed.

(** A NaN compares with nothing. *)
Lemma nan_leb (y c : float) :
  is_nan y = true -> (c <=? y)%float = false /\ (y <=? c)%float = false.
Proof.
  unfold is_nan. rewrite FloatAxioms.eqb_spec, !leb_spec.
  destruct (Prim2SF y) as [s | s | | s m e].
  - destruct s; discriminate.
  - destruct s; discriminate.
  - intros _. split; [| reflexivity]. unfold SFleb, SFcompare.
    now destruct (Prim2SF c).
  - now rewrite SFeqb_finite_refl.
Qed.

Section Box.
Context {F : Type} `{LoggingFunction F} {Fun X0 Callback Result : Type}.

(** X: the constraints are stricter than the bounds: a point of the
    dimension of the instance at which no constraint expression is
    negative lies within the bounds the same object holds. *)
Theorem constraints_within_bounds
    (so : @OuterLoop Fun X0 Callback Result) (name : string)
    (fi : FInstance F) (m : t) (x : ndarray) :
  __init__ so name fi = inr m ->
  Z.of_nat (length x) = dim fi ->
  (forall g, In g (constraint_funs (minimizer_kwargs m)) ->
             satisfied (g x) = true) ->
  exists bs : list (float * float),
    minimizer_kwargs m !! "bounds" = Some (VBounds bs) /\ within bs x.
Proof.
  intros Hm Hlen Hsat.
  destruct (MethodFacts.init_inr so name fi m Hm)
    as (_ & _ & _ & _ & Hb & Hc & _).
  eexists. split; [exact Hb |].
  rewrite Hc in Hsat.
  assert (Hlo : satisfied (constraint_lo x) = true) by (apply Hsat; now left).
  assert (Hhi : satisfied (constraint_hi x) = true)
    by (apply Hsat; right; now left).
  assert (Hx : x <> []) by (intros ->; discriminate).
  rewrite (constraint_lo_satisfied x Hx) in Hlo.
  rewrite (constraint_hi_satisfied x Hx) in Hhi.
  unfold within, range. rewrite <- Hlen, Nat2Z.id. clear -Hlo Hhi.
  rewrite map_map.
  assert (Hgen : forall k : nat,
    Forall2 (fun b xi => (fst b <=? xi)%float = true
                         /\ (xi <=? snd b)%float = true)
            (map (fun _ => ((-6)%float, 6%float)) (seq k (length x))) x).
  { induction x as [|y x IH]; intros k; [constructor |].
    cbn [forallb] in Hlo, Hhi.
    apply andb_true_iff in Hlo as [Hy1 Hx1].
    apply andb_true_iff in Hhi as [Hy2 Hx2].
    cbn [length seq map]. constructor.
    - split; [now apply ge_minus_six | now apply le_six].
    - now apply IH. }
  apply Hgen.
Qed.

(** X: a point with a NaN coordinate satisfies no constraint. *)
Theorem nan_point_infeasible
    (so : @OuterLoop Fun X0 Callback Result) (name : string)
    (fi : FInstance F) (m : t) (x : ndarray) (y : float) :
  __init__ so name fi = inr m ->
  In y x ->
  is_nan y = true ->
  forall g, In g (constraint_funs (minimizer_kwargs m)) ->
            satisfied (g x) = false.
Proof.
  intros Hm Hy Hnan g Hg.
  destruct (MethodFacts.init_inr so name fi m Hm)
    as (_ & _ & _ & _ & _ & Hc & _).
  rewrite Hc in Hg.
  assert (Hx : x <> []) by (intros ->; contradiction).
  assert (Hall : forall p : float -> bool,
            p y = false -> forallb p x = false).
  { intros p Hp. destruct (forallb p x) eqn:E; [| reflexivity].
    rewrite forallb_forall in E. now rewrite (E y Hy) in Hp. }
  destruct Hg as [<- | [<- | []]].
  - rewrite (constraint_lo_satisfied x Hx). apply Hall.
    exact (proj1 (nan_leb y (-5)%float Hnan)).
  - rewrite (constraint_hi_satisfied x Hx). apply Hall.
    exact (proj2 (nan_leb y 5%float Hnan)).
Qed.

End Box.

Import Scenario.

Lemma setup_method_overrides_witness :
  _setup_method "CG" bfgs
  = inr {| name := "BFGS"; fi := fi2; outer_loop := echo_loop;
           minimizer_kwargs :=
             <["method" := VStr "CG"]> (minimizer_kwargs bfgs) |}
  /\ _setup_method "Powell"
       {| name := "BFGS"; fi := fi2; outer_loop := echo_loop;
          minimizer_kwargs :=
            <["method" := VStr "CG"]> (minimizer_kwargs bfgs) |}
     = _setup_method "Powell" bfgs.
Proof.
  split; [reflexivity |].
  exact (proj2 (proj2 (proj2 (proj2 (proj2
           (setup_method_overrides "CG" "Powell" bfgs _ eq_refl)))))).
Defined.

Lemma constraints_within_bounds_witness :
  MinimizeMethod.__init__ echo_loop "BFGS" fi2 = inr bfgs
  /\ Z.of_nat (length [(-5)%float; 5%float]) = dim fi2
  /\ exists bs : list (float * float),
       minimizer_kwargs bfgs !! "bounds" = Some (VBounds bs)
       /\ within bs [(-5)%float; 5%float].
Proof.
  split; [reflexivity |]. split; [reflexivity |].
  apply (constraints_within_bounds echo_loop "BFGS" fi2 bfgs
           [(-5)%float; 5%float] eq_refl eq_refl).
  intros g [<- | [<- | []]]; reflexivity.
Defined.

Lemma nan_point_infeasible_witness :
  MinimizeMethod.__init__ echo_loop "BFGS" fi2 = inr bfgs
  /\ In nan nan_point
  /\ is_nan nan = true
  /\ satisfied (constraint_lo nan_point) = false
  /\ satisfied (constraint_hi nan_point) = false.
Proof.
  split; [reflexivity |].
  assert (Hin : In nan nan_point) by (right; left; reflexivity).
  split; [exact Hin |]. split; [reflexivity |].
  split.
  - apply (nan_point_infeasible echo_loop "BFGS" fi2 bfgs nan_point nan
             eq_refl Hin eq_refl). left. reflexivity.
  - apply (nan_point_infeasible echo_loop "BFGS" fi2 bfgs nan_point nan
             eq_refl Hin eq_refl). right. left. reflexivity.
Defined.

End MethodShapeFacts.

(** * Edges: a second log on the same file, a point without coordinates *)

Module EdgeFacts.
Import Bbob Fmt SteppingData StringFacts SteppingFacts.

#[local] Arguments String.append !s1 s2 : simpl nomatch.

Section SecondLog.
Context {F : Type} `{LoggingFunction F}.

(** X: a log constructed on the file of an earlier log that has flushed
    starts where that one stopped: its text is the earlier text followed
    by a header of its own. *)
Theorem second_log_continues_file
    (st : t * World F) (fi' : FInstance F) :
  File.buffer (datafile (fst st)) = "" ->
  File.path (datafile (fst (__init__ fi' (fs (snd st)))))
  = File.path (datafile (fst st)) ->
  log_text (__init__ fi' (fs (snd st))) = log_text st ++ header.
Proof.
  intros Hbuf Hpath.
  pose proof (init_log fi' (fs (snd st))) as Hlog. cbv zeta in Hlog.
  rewrite Hlog, Hpath. f_equal.
  unfold log_text, File.contents. rewrite Hbuf. symmetry. apply append_nil_r.
Qed.

End SecondLog.

Import MinimizeMethod Scenario.

(** A log of the scenario's instance after one [record] call. *)
Definition flushed_log : SteppingData.t * World fgeneric :=
  run [Record_ 0 "BFGS" 1 1%float []] (SteppingData.__init__ fi2 ∅).

Section EmptyPoint.
Context {F : Type} `{LoggingFunction F} {Fun X0 Callback Result : Type}.

(** X: the constraint expressions of a constructed object raise for the
    point without coordinates, and only for it. *)
Theorem constraints_raise_on_empty_point
    (so : @OuterLoop Fun X0 Callback Result) (name : string)
    (fi : FInstance F) (m : MinimizeMethod.t) (x : ndarray) :
  MinimizeMethod.__init__ so name fi = inr m ->
  forall g, In g (constraint_funs (minimizer_kwargs m)) ->
            ((exists msg : string, g x = inl (ValueError msg)) <-> x = []).
Proof.
  intros Hm g Hg.
  destruct (MethodFacts.init_inr so name fi m Hm)
    as (_ & _ & _ & _ & _ & Hc & _).
  rewrite Hc in Hg.
  destruct Hg as [<- | [<- | []]];
    unfold constraint_lo, constraint_hi, Np.min, Np.add, Np.neg, Np.sub;
    destruct x as [|y x]; cbn [map]; split;
    try (intros [msg E]; discriminate); try discriminate;
    try reflexivity; intros _; eexists; reflexivity.
Qed.

End EmptyPoint.

Lemma second_log_continues_file_witness :
  File.buffer (datafile (fst flushed_log)) = ""
  /\ File.path (datafile (fst (SteppingData.__init__ fi2 (fs (snd flushed_log)))))
     = File.path (datafile (fst flushed_log))
  /\ log_text (SteppingData.__init__ fi2 (fs (snd flushed_log)))
     = log_text flushed_log ++ header.
Proof.
  assert (Hb : File.buffer (datafile (fst flushed_log)) = "")
    by (vm_compute; reflexivity).
  assert (Hp : File.path (datafile (fst (SteppingData.__init__ fi2
                                            (fs (snd flushed_log)))))
               = File.path (datafile (fst flushed_log)))
    by (vm_compute; reflexivity).
  split; [exact Hb |]. split; [exact Hp |].
  exact (second_log_continues_file flushed_log fi2 Hb Hp).
Defined.

Lemma constraints_raise_on_empty_point_witness :
  MinimizeMethod.__init__ echo_loop "BFGS" fi2 = inr bfgs
  /\ In constraint_lo (constraint_funs (minimizer_kwargs bfgs))
  /\ ((exists msg : string, constraint_lo [] = inl (ValueError msg))
      <-> @nil float = []).
Proof.
  split; [reflexivity |].
  assert (Hin : In constraint_lo (constraint_funs (minimizer_kwargs bfgs)))
    by (left; reflexivity).
  split; [exact Hin |].
  exact (constraints_raise_on_empty_point echo_loop "BFGS" fi2 bfgs []
           eq_refl constraint_lo Hin).
Defined.

End EdgeFacts.
